(** * PhyArch NEXUS: the service worker's offline cache and the native formulas

    A shallow embedding of [sw.js] (the v1.1 service worker: install,
    activate and fetch listeners over the browser's Cache Storage) and of
    [physics_engine.cpp] (two single-precision formulas), followed by the
    properties the specification states about them.

    The browser side of the worker is modelled as far as the listeners use
    it: Cache Storage is an ordered list of named caches, a cache is a
    finite map from request URLs to responses, the network is a function
    from URLs to an optional response, and a promise chain is a task that
    threads the storage, settles (fulfils or rejects) and records the
    effects it performed. *)

From Stdlib Require Import ZArith List Bool String Ascii.
From Stdlib Require Import Floats.SpecFloat.
From stdpp Require Import gmap strings list.

Open Scope string_scope.
Open Scope list_scope.

(** ** Strings *)

(** [String.prototype.endsWith]: the last [searchLength] characters of
    [s] are compared with [search]; a longer [search] never matches. *)
Definition endsWith (s search : string) : bool :=
  let len := String.length s in
  let searchLength := String.length search in
  if (len <? searchLength)%nat then false
  else String.eqb (substring (len - searchLength) searchLength s) search.

(** ** Requests, responses, caches *)

Record Request := mkRequest {
  method : string;
  url : string;
  mode : string
}.

Record Response := mkResponse {
  status : Z;
  body : string
}.

(** [fetch]: [None] is a rejected fetch (the network is unreachable); an
    HTTP error status is still a response. *)
Definition Network := string -> option Response.

(** Cache Storage, in creation order: [caches.keys()] lists it and
    [caches.match] searches it in that order. *)
Abbreviation CacheStorage := (list (string * gmap string Response)).

Inductive Effect :=
| NetFetch (u : string)
| CacheLookup (u : string)
| CachePut (name u : string)
| CacheDelete (name : string)
| SkipWaiting
| ClientsClaim.

Inductive Settled (A : Type) :=
| Fulfilled (a : A)
| Rejected.
Arguments Fulfilled {A} a.
Arguments Rejected {A}.

(** What the page that issued the request observes. *)
Inductive Outcome :=
| PassThrough
| Respond (r : Response)
| RespondUndefined
| RespondRejected.

Definition storage_names (s : CacheStorage) : list string := s.*1.

Fixpoint storage_get (name : string) (s : CacheStorage) : option (gmap string Response) :=
  match s with
  | [] => None
  | (n, c) :: s' => if decide (n = name) then Some c else storage_get name s'
  end.

Fixpoint storage_match (s : CacheStorage) (u : string) : option Response :=
  match s with
  | [] => None
  | (_, c) :: s' =>
      match c !! u with
      | Some r => Some r
      | None => storage_match s' u
      end
  end.

Definition storage_open (name : string) (s : CacheStorage) : CacheStorage :=
  match storage_get name s with
  | Some _ => s
  | None => s ++ [(name, ∅)]
  end.

Definition storage_put (name u : string) (r : Response) (s : CacheStorage) : CacheStorage :=
  (fun nc : string * gmap string Response =>
     if decide (nc.1 = name) then (nc.1, <[u := r]> nc.2) else nc) <$> s.

Definition storage_delete (name : string) (s : CacheStorage) : CacheStorage :=
  filter (fun nc : string * gmap string Response => nc.1 ≠ name) s.

(** Well-formed storage: cache names are unique. *)
Definition storage_wf (s : CacheStorage) : Prop := NoDup (storage_names s).

(** ** Promise chains *)

Definition Task (A : Type) : Type :=
  Network -> CacheStorage -> Settled A * CacheStorage * list Effect.

Definition resolve {A} (a : A) : Task A :=
  fun _ s => (Fulfilled a, s, []).

Definition perform (e : Effect) : Task unit :=
  fun _ s => (Fulfilled tt, s, [e]).

Definition andThen {A B} (m : Task A) (f : A -> Task B) : Task B :=
  fun net s =>
    match m net s with
    | (Fulfilled a, s1, t1) =>
        match f a net s1 with
        | (b, s2, t2) => (b, s2, t1 ++ t2)
        end
    | (Rejected, s1, t1) => (Rejected, s1, t1)
    end.

Definition catch {A} (m : Task A) (h : Task A) : Task A :=
  fun net s =>
    match m net s with
    | (Fulfilled a, s1, t1) => (Fulfilled a, s1, t1)
    | (Rejected, s1, t1) =>
        match h net s1 with
        | (b, s2, t2) => (b, s2, t1 ++ t2)
        end
    end.

Notation "'await' x ':=' m 'in' k" := (andThen m (fun x => k))
  (at level 10, x name, m at level 100, k at level 200).
Notation "'after' m 'then' k" := (andThen m (fun _ => k))
  (at level 10, m at level 100, k at level 200).

(** Whether a reader has taken (locked) the body stream of a response. *)
Inductive Body := Intact | Taken.

(** [response.clone()]: throws a TypeError once the body is locked or
    disturbed. *)
Definition clone (body : Body) (r : Response) : Task Response :=
  fun _ s =>
    match body with
    | Intact => (Fulfilled r, s, [])
    | Taken => (Rejected, s, [])
    end.

(** A promise chain that is started and not awaited: it runs, and however
    it settles, a rejection included, nobody is told. *)
Definition unawaited {A} (m : Task A) : Task unit :=
  fun net s =>
    match m net s with
    | (_, s1, t) => (Fulfilled tt, s1, t)
    end.

Definition fetch (u : string) : Task Response :=
  fun net s =>
    match net u with
    | Some r => (Fulfilled r, s, [NetFetch u])
    | None => (Rejected, s, [NetFetch u])
    end.

Definition caches_match (u : string) : Task (option Response) :=
  fun _ s => (Fulfilled (storage_match s u), s, [CacheLookup u]).

(** [caches.open(name)] creates the cache when it is missing; the handle
    it fulfils with is the name. *)
Definition caches_open (name : string) : Task string :=
  fun _ s => (Fulfilled name, storage_open name s, []).

Definition cache_put (cache u : string) (r : Response) : Task unit :=
  fun _ s => (Fulfilled tt, storage_put cache u r s, [CachePut cache u]).

Definition caches_keys : Task (list string) :=
  fun _ s => (Fulfilled (storage_names s), s, []).

Definition caches_delete (name : string) : Task bool :=
  fun _ s =>
    (Fulfilled (bool_decide (is_Some (storage_get name s))),
     storage_delete name s, [CacheDelete name]).

(** [Promise.all(xs.map(f))] for tasks that do not reject one another:
    run in list order. *)
Fixpoint promise_all {A B} (f : A -> Task B) (xs : list A) : Task (list B) :=
  match xs with
  | [] => resolve []
  | x :: xs' =>
      await b := f x in
      await bs := promise_all f xs' in
      resolve (b :: bs)
  end.

(** [cache.addAll] accepts a response only with an ok status (200..299)
    other than 206. *)
Definition addAll_accepts (r : Response) : bool :=
  (200 <=? status r)%Z && (status r <=? 299)%Z && negb (status r =? 206)%Z.

Definition addAll_fetched (net : Network) (u : string) : option (string * Response) :=
  match net u with
  | Some r => if addAll_accepts r then Some (u, r) else None
  | None => None
  end.

Definition storage_put_all (cache : string) (entries : list (string * Response))
    (s : CacheStorage) : CacheStorage :=
  fold_left (fun st ur => storage_put cache ur.1 ur.2 st) entries s.

(** [cache.addAll(urls)]: every URL is fetched; the entries are written
    only when every fetch is accepted, otherwise the promise rejects and
    nothing is written. *)
Definition cache_addAll (cache : string) (urls : list string) : Task unit :=
  fun net s =>
    match mapM (addAll_fetched net) urls with
    | Some entries =>
        (Fulfilled tt, storage_put_all cache entries s,
         (NetFetch <$> urls) ++ (CachePut cache <$> urls))
    | None => (Rejected, s, NetFetch <$> urls)
    end.

(** [event.respondWith(p)]: the page receives the response [p] fulfils
    with; [undefined] or a rejection reaches it as a failed request. *)
Definition respondWith (p : Task (option Response)) :
    Network -> CacheStorage -> Outcome * CacheStorage * list Effect :=
  fun net s =>
    match p net s with
    | (Fulfilled (Some r), s1, t) => (Respond r, s1, t)
    | (Fulfilled None, s1, t) => (RespondUndefined, s1, t)
    | (Rejected, s1, t) => (RespondRejected, s1, t)
    end.

(** ** sw.js *)

Definition CACHE_NAME : string := "phyarch-nexus-v1.1".
Definition OFFLINE_PAGE : string := "/offline.html".

Definition STATIC_ASSETS : list string :=
  [ "/";
    "/index.html";
    "/manifest.json";
    "/icon-192.png";
    "/icon-512.png";
    "/screenshot-wide.png";
    "/screenshot-mobile.png";
    "/offline.html" ].

Section ServiceWorker.

(** The worker's origin, e.g. [https://phyarch.app]: a path given to the
    Cache API is resolved against it, and [event.request.url] is
    absolute. *)
Variable origin : string.

Definition absolute (path : string) : string := origin +:+ path.

Definition on_install : Task unit :=
  await cache := caches_open CACHE_NAME in
  after cache_addAll cache (absolute <$> STATIC_ASSETS) then
  perform SkipWaiting.

Definition on_activate : Task unit :=
  await keys := caches_keys in
  after promise_all caches_delete (filter (fun key => key ≠ CACHE_NAME) keys) then
  perform ClientsClaim.

Definition is_static (request_url : string) : bool :=
  existsb (fun url => endsWith request_url url) STATIC_ASSETS.

(** Cache-first for static assets. [cached || fetch(...)]: the fetch is
    evaluated only when [caches.match] found nothing. A response object is
    truthy, so [networkResponse && networkResponse.status === 200] is the
    test on the status. The chain [caches.open(...).then(cache =>
    cache.put(request, networkResponse.clone()))] is started and not
    awaited, and [networkResponse] is returned at once. [caches.open]
    settles in a later task; by then [respondWith] has received
    [networkResponse] and taken its body, so the callback's [clone()]
    finds the body [Taken]: it throws, and [cache.put] is never reached. *)
Definition cache_first (request : Request) : Task (option Response) :=
  await cached := caches_match (url request) in
  match cached with
  | Some r => resolve (Some r)
  | None =>
      await networkResponse := fetch (url request) in
      after (if (status networkResponse =? 200)%Z
             then unawaited
                    (await cache := caches_open CACHE_NAME in
                     await copy := clone Taken networkResponse in
                     cache_put cache (url request) copy)
             else resolve tt) then
      resolve (Some networkResponse)
  end.

(** Network-first with offline fallback for navigation. *)
Definition network_first (request : Request) : Task (option Response) :=
  catch (await r := fetch (url request) in resolve (Some r))
        (if String.eqb (mode request) "navigate"
         then caches_match (absolute OFFLINE_PAGE)
         else resolve (Some (mkResponse 503 ""))).

(** The fetch listener: returning without [respondWith] leaves the request
    to the browser. *)
Definition on_fetch (request : Request) :
    Network -> CacheStorage -> Outcome * CacheStorage * list Effect :=
  if negb (String.eqb (method request) "GET") then
    fun _ s => (PassThrough, s, [])
  else if is_static (url request) then respondWith (cache_first request)
  else respondWith (network_first request).

(** The browser's lifecycle for a new worker: the install listener runs;
    only when its promise fulfils is the worker activated (at once, since
    it asked to skip waiting); a rejected install makes it redundant and
    the activate listener never runs. *)
Definition register (net : Network) (s : CacheStorage) : bool * CacheStorage :=
  match on_install net s with
  | (Fulfilled _, s1, _) => (true, (on_activate net s1).1.2)
  | (Rejected, s1, _) => (false, s1)
  end.

(** The storage states in which the fetch listener of this worker runs:
    after its own successful install and activation, and after any
    number of handled requests. *)
Inductive Serving : CacheStorage -> Prop :=
| Serving_activated net net' s s1 t :
    on_install net s = (Fulfilled tt, s1, t) ->
    Serving (on_activate net' s1).1.2
| Serving_handled net request s :
    Serving s ->
    Serving (on_fetch request net s).1.2.

End ServiceWorker.

(** ** physics_engine.cpp *)

Module PhysicsEngine.

(** C++ [float] is IEEE 754 binary32: 24 bits of precision, exponents
    below 128. Zeros, infinities and finite values are represented bit for
    bit; all NaNs are the one [S754_nan], so a NaN's sign bit and payload
    are not represented. *)
Definition float := spec_float.
Definition prec : Z := 24.
Definition emax : Z := 128.

Definition zero : float := S754_zero false.
Definition fle (x y : float) : bool := SFleb x y.
Definition fmul (x y : float) : float := SFmul prec emax x y.

(** A run returns the value and the denominators it divided by. The
    literal [0] of [area <= 0] is converted to [+0.0f]; a NaN compares
    false. [calculate_stress] reads the same in both translation units
    that define it. *)
Definition fdiv (x y : float) : float * list float := (SFdiv prec emax x y, [y]).

Definition calculate_stress_run (force area : float) : float * list float :=
  if fle area zero then (zero, [])
  else fdiv force area.

Definition calculate_displacement_run (force length area modulus : float)
    : float * list float :=
  if fle area zero || fle modulus zero then (zero, [])
  else fdiv (fmul force length) (fmul area modulus).

Definition calculate_stress (force area : float) : float :=
  (calculate_stress_run force area).1.

Definition calculate_displacement (force length area modulus : float) : float :=
  (calculate_displacement_run force length area modulus).1.

End PhysicsEngine.

(** ** A concrete deployment, for evaluating the listeners *)

Module Example.

Definition origin : string := "https://phyarch.app".

(** A network that answers every URL with status 200 and a fresh body. *)
Definition network_up : Network := fun u => Some (mkResponse 200 ("fresh " +:+ u)).

Definition network_down : Network := fun _ => None.

(** A network on which only [/index.html] cannot be fetched. *)
Definition network_without_index : Network :=
  fun u => if String.eqb u "https://phyarch.app/index.html" then None
           else network_up u.

(** The storage the previous worker (generation v1) left behind. *)
Definition previous : CacheStorage :=
  [("phyarch-nexus-v1",
    {[ "https://phyarch.app/" := mkResponse 200 "v1 shell" ]})].

Definition installed : CacheStorage := (on_install origin network_up previous).1.2.
Definition install_trace : list Effect := (on_install origin network_up previous).2.
Definition current : CacheStorage := (on_activate network_up installed).1.2.

(** A storage whose entry for [/index.html] is older than the network's. *)
Definition stale : CacheStorage :=
  [(CACHE_NAME,
    {[ "https://phyarch.app/index.html" := mkResponse 200 "stale index" ]})].

Definition get (path mode : string) : Request := mkRequest "GET" (origin +:+ path) mode.

(** binary32 values: 1.0 and 2^-100. *)
Definition one : PhysicsEngine.float := S754_finite false 8388608 (-23).
Definition tiny : PhysicsEngine.float := S754_finite false 8388608 (-123).
Definition minus_one : PhysicsEngine.float := S754_finite true 8388608 (-23).

End Example.

(** ** The previous worker (generation v1) *)

(** [String.prototype.startsWith]. *)
Definition startsWith (s search : string) : bool := String.prefix search s.

Module SwV1.

Definition CACHE_NAME : string := "phyarch-nexus-v1".
Definition OFFLINE_URL : string := "/offline.html".

Definition CORE_ASSETS : list string :=
  [ "/";
    "/index.html";
    "/manifest.json";
    "/icon-192.png";
    "/icon-512.png" ].

Section Worker.

Variable origin : string.

Definition on_install : Task unit :=
  await cache := caches_open CACHE_NAME in
  after cache_addAll cache (absolute origin <$> CORE_ASSETS) then
  perform SkipWaiting.

Definition on_activate : Task unit :=
  await cacheNames := caches_keys in
  after promise_all caches_delete (filter (fun name => name ≠ CACHE_NAME) cacheNames) then
  perform ClientsClaim.

Definition is_core (request_url : string) : bool :=
  existsb (fun asset => endsWith request_url asset) CORE_ASSETS.

(** Cache-first for core assets: [cached || fetch(event.request)]. *)
Definition cache_first (request : Request) : Task (option Response) :=
  await cached := caches_match (url request) in
  match cached with
  | Some r => resolve (Some r)
  | None => await r := fetch (url request) in resolve (Some r)
  end.

(** Network-first + fallback for everything else. *)
Definition network_first (request : Request) : Task (option Response) :=
  catch (await r := fetch (url request) in resolve (Some r))
        (if String.eqb (mode request) "navigate"
         then caches_match (absolute origin OFFLINE_URL)
         else resolve (Some (mkResponse 503 ""))).

Definition on_fetch (request : Request) :
    Network -> CacheStorage -> Outcome * CacheStorage * list Effect :=
  if negb (String.eqb (method request) "GET")
     || startsWith (url request) "chrome-extension://" then
    fun _ s => (PassThrough, s, [])
  else if is_core (url request) then respondWith (cache_first request)
  else respondWith (network_first request).

End Worker.

End SwV1.

(** ** App.tsx: the console log and the script generator *)

Module App.

(** [Array.prototype.slice(start)]: a negative [start] counts from the
    end, and both directions are clamped to the array. *)
Definition slice {A} (start : Z) (l : list A) : list A :=
  let len := Z.of_nat (length l) in
  let k := if (start <? 0)%Z then Z.max (len + start) 0 else Z.min start len in
  drop (Z.to_nat k) l.

(** The last [n] elements of a list, for stating what the console keeps. *)
Definition last_n {A} (n : nat) (l : list A) : list A := drop (length l - n) l.

Definition dq : string := String (Ascii.Ascii false true false false false true false false) "".
Definition nl : string := String (Ascii.Ascii false true false true false false false false) "".

(** The lines of a template literal, joined by its line breaks. *)
Fixpoint template (lines : list string) : string :=
  match lines with
  | [] => ""
  | [l] => l
  | l :: rest => l +:+ nl +:+ template rest
  end.

Definition ARCHITECT_SHELL_PROMPT : string :=
  template
    [ "Role: You are the " +:+ dq +:+ "Master Builder" +:+ dq +:+
        " Core (App 1). Your goal is to generate clean, offline-ready Python code for App 2.";
      "Behavior:";
      "Output Format: Output ONLY raw Python code. Do not explain the code or say " +:+ dq +:+
        "Here is your script." +:+ dq +:+ " No markdown backticks.";
      "Architecture:";
      "1. Use KivyMD for all UI elements.";
      "2. All physics math must be encapsulated in a class called SandboxSim.";
      "3. Privacy Shield: You are strictly forbidden from using import os, import subprocess, or import requests.";
      "4. Error Prevention: Include basic try-except blocks in the code you generate to prevent the sandbox from crashing if the physics math fails." ].

Definition PHYSICS_LIBRARY_CONSTRAINT : string :=
  template
    [ "Constraint: You are strictly limited to the following pre-bundled libraries: numpy, scipy, sympy, and qutip.";
      "Standard:";
      "For orbital mechanics: Use scipy.integrate.solve_ivp.";
      "For quantum states: Use qutip.Qobj and qutip.mesolve.";
      "For geometric rendering: Use Kivy Canvas instructions (Line, Ellipse, Mesh).";
      "Privacy Shield: Do not attempt to read from /data/ or /sdcard/ unless the user provides a specific local file path." ].

Definition EVOLUTION_LOGIC_PROMPT : string :=
  template
    [ "Evolution Task: You will be provided with a previous Python script. Your task is to modify it based on the user's " +:+ dq +:+
        "Evolution Request" +:+ dq +:+ " while keeping the core class structure intact.";
      "Rules:";
      "Consistency: Retain the original variable names for the physics states (self.state, self.velocity).";
      "AST Compliance: The updated code must be validatable by the ast module.";
      "Efficiency: Only update the specific functions requested (e.g., changing the gravity constant or adding a new plot type) to save processing power on-device." ].

Definition SYNTHESIS_TASK : string :=
  "Task: Generate a comprehensive Android Physics Architect tool. It must include a SciPy-based trajectory calculator and a QuTiP-based quantum state visualizer. All physics logic must reside within the SandboxSim class. Ensure it uses KivyMD widgets for all UI elements.".

Inductive Tab := simulation | script.

(** The component's state ([physics] and the canvas apart). *)
Record State := mkState {
  activeTab : Tab;
  generatedScript : string;
  evolutionRequest : string;
  isGenerating : bool;
  logs : list string
}.

Definition initial : State :=
  mkState simulation "" "" false
    ["System initialized..."; "Ready for architectural design."].

Definition setLogs (f : list string -> list string) (st : State) : State :=
  mkState (activeTab st) (generatedScript st) (evolutionRequest st) (isGenerating st)
          (f (logs st)).
Definition setIsGenerating (b : bool) (st : State) : State :=
  mkState (activeTab st) (generatedScript st) (evolutionRequest st) b (logs st).
Definition setGeneratedScript (v : string) (st : State) : State :=
  mkState (activeTab st) v (evolutionRequest st) (isGenerating st) (logs st).
Definition setActiveTab (t : Tab) (st : State) : State :=
  mkState t (generatedScript st) (evolutionRequest st) (isGenerating st) (logs st).
Definition setEvolutionRequest (v : string) (st : State) : State :=
  mkState (activeTab st) (generatedScript st) v (isGenerating st) (logs st).

(** A console line; [now] is what [new Date().toLocaleTimeString()]
    returned. *)
Definition log_line (now msg : string) : string := "[" +:+ now +:+ "] " +:+ msg.

Definition addLog (now msg : string) : State -> State :=
  setLogs (fun prev => slice (-4) prev ++ [log_line now msg]).

(** What [generateKivyScript] can be called with: nothing (the default
    [false] applies), a boolean, or, wired directly as [onClick], the
    click event object. *)
Inductive Argument := Omitted | Flag (b : bool) | ClickEvent.

(** The truth value the body's conditions see for [isEvolution]. *)
Definition isEvolution (a : Argument) : bool :=
  match a with
  | Omitted => false
  | Flag b => b
  | ClickEvent => true
  end.

Definition nonempty (v : string) : bool :=
  match v with "" => false | _ => true end.

Definition build_prompt (evolution : bool) (st : State) : string :=
  let prompt := ARCHITECT_SHELL_PROMPT +:+ nl +:+ nl +:+
                PHYSICS_LIBRARY_CONSTRAINT +:+ nl +:+ nl in
  if evolution && nonempty (generatedScript st) then
    prompt +:+ (EVOLUTION_LOGIC_PROMPT +:+ nl +:+ nl +:+ "Previous Script:" +:+ nl +:+
                generatedScript st +:+ nl +:+ nl +:+
                "Evolution Request: " +:+ evolutionRequest st)
  else prompt +:+ SYNTHESIS_TASK.

(** How [ai.models.generateContent] settles: it throws, or it answers
    with a [text] that may be undefined. *)
Inductive Completion := Thrown | Answered (text : option string).

(** [response.text || '# Error generating script']. *)
Definition script_of (text : option string) : string :=
  match text with
  | Some v => if nonempty v then v else "# Error generating script"
  | None => "# Error generating script"
  end.

(** [generateKivyScript] up to its [await]: the state it leaves and the
    prompt it sends. *)
Definition generate_begin (a : Argument) (now : string) (st : State) : State * string :=
  (addLog now (if isEvolution a then "Evolving existing script..."
               else "Synthesizing KivyMD Physics Script...")
     (setIsGenerating true st),
   build_prompt (isEvolution a) st).

(** [generateKivyScript] from the [await] on, on the state as it is when
    the completion arrives. *)
Definition generate_settle (a : Argument) (now : string) (c : Completion)
    (st : State) : State :=
  setIsGenerating false
    match c with
    | Answered text =>
        let st1 := setGeneratedScript (script_of text) st in
        let st2 := setActiveTab script st1 in
        let st3 := addLog now (if isEvolution a then "Evolution complete."
                               else "Script synthesis complete.") st2 in
        if isEvolution a then setEvolutionRequest "" st3 else st3
    | Thrown =>
        addLog now ("Error: " +:+ (if isEvolution a then "Evolution" else "Synthesis")
                    +:+ " failed.") st
    end.

(** One uninterrupted run. *)
Definition generateKivyScript (a : Argument) (now now' : string) (c : Completion)
    (st : State) : State :=
  generate_settle a now' c (generate_begin a now st).1.

End App.

(** ** More concrete states, for evaluating the further properties *)

Module Further.

(** The storage after the uncached [/docs/] was requested and the network
    answered 200. *)
Definition handled_once : CacheStorage :=
  (on_fetch Example.origin (Example.get "/docs/" "cors")
     Example.network_up Example.current).1.2.

(** The previous worker installed and activated on an empty storage. *)
Definition v1_installed : CacheStorage :=
  (SwV1.on_install Example.origin Example.network_up []).1.2.
Definition v1_install_trace : list Effect :=
  (SwV1.on_install Example.origin Example.network_up []).2.
Definition v1_current : CacheStorage :=
  (SwV1.on_activate Example.network_up v1_installed).1.2.

(** Results of the native formulas are compared as numbers: two NaNs
    count as the same result, whatever their sign bit and payload would
    be; anything else must be the same value bit for bit. *)
Definition is_nan (x : PhysicsEngine.float) : bool :=
  match x with S754_nan => true | _ => false end.

Definition same_result (x y : PhysicsEngine.float) : Prop :=
  is_nan x = is_nan y /\ (is_nan x = false -> x = y).

(** The application once a script exists and a request was typed. *)
Definition with_script : App.State :=
  App.mkState App.script "class SandboxSim: pass" "Add a gravity slider" false
    ["System initialized..."; "Ready for architectural design."].

Definition events : list (string * string) :=
  [("10:00:01", "Added structural box element.");
   ("10:00:02", "Added dynamic sphere element.");
   ("10:00:03", "Synthesizing KivyMD Physics Script...");
   ("10:00:09", "Script synthesis complete.")].

End Further.

(** Membership in a literal list, and its refutation. *)
Ltac listed := apply list_elem_of_In; simpl; tauto.
Ltac not_listed H :=
  apply list_elem_of_In in H; simpl in H;
  repeat (destruct H as [H|H]; [discriminate H|]); exact H.

(** ** Strings: a URL ends with the path it was resolved from *)

Lemma length_append (p a : string) :
  String.length (p +:+ a) = (String.length p + String.length a)%nat.
Proof. induction p as [|ch p IH]; simpl; [reflexivity | now rewrite IH]. Qed.

Lemma substring_whole (a : string) : substring 0 (String.length a) a = a.
Proof. induction a as [|ch a IH]; simpl; [reflexivity | now rewrite IH]. Qed.

Lemma substring_append_r (p a : string) :
  substring (String.length p) (String.length a) (p +:+ a) = a.
Proof. induction p as [|ch p IH]; simpl; [apply substring_whole | exact IH]. Qed.

Lemma append_assoc (a b c : string) : (a +:+ b) +:+ c = a +:+ (b +:+ c).
Proof.
  induction a as [|ch a IH]; [reflexivity|].
  change (String ch ((a +:+ b) +:+ c) = String ch (a +:+ (b +:+ c))).
  now rewrite IH.
Qed.

Lemma endsWith_append (p a : string) : endsWith (p +:+ a) a = true.
Proof.
  unfold endsWith. rewrite length_append.
  destruct (Nat.ltb_spec (String.length p + String.length a) (String.length a)) as [Hlt|_].
  - lia.
  - replace (String.length p + String.length a - String.length a)%nat
      with (String.length p) by lia.
    rewrite substring_append_r. apply String.eqb_refl.
Qed.

(** ** Cache Storage *)

Lemma storage_get_app (name : string) (s t : CacheStorage) :
  storage_get name (s ++ t) =
  match storage_get name s with Some c => Some c | None => storage_get name t end.
Proof.
  induction s as [|[n c] s IH]; simpl; [reflexivity|].
  destruct (decide (n = name)); [reflexivity | exact IH].
Qed.

Lemma storage_match_app (s t : CacheStorage) (u : string) :
  storage_match (s ++ t) u =
  match storage_match s u with Some r => Some r | None => storage_match t u end.
Proof.
  induction s as [|[n c] s IH]; simpl; [reflexivity|].
  destruct (c !! u); [reflexivity | exact IH].
Qed.

Lemma storage_get_open (name : string) (s : CacheStorage) :
  storage_get name (storage_open name s) = Some (default ∅ (storage_get name s)).
Proof.
  unfold storage_open. destruct (storage_get name s) as [c|] eqn:Hget.
  - now rewrite Hget.
  - rewrite storage_get_app, Hget. simpl. now rewrite decide_True.
Qed.

Lemma storage_get_open_ne (name name' : string) (s : CacheStorage) :
  name' ≠ name ->
  storage_get name' (storage_open name s) = storage_get name' s.
Proof.
  intros Hne. unfold storage_open. destruct (storage_get name s); [reflexivity|].
  rewrite storage_get_app. destruct (storage_get name' s); [reflexivity|].
  simpl. now rewrite decide_False by congruence.
Qed.

(** What [caches.match] misses, no cache holds. *)
Lemma storage_match_None_get (name : string) (s : CacheStorage)
    (c : gmap string Response) (u : string) :
  storage_match s u = None -> storage_get name s = Some c -> c !! u = None.
Proof.
  induction s as [|[n c0] s IH]; simpl; [discriminate|].
  destruct (c0 !! u) eqn:Hu; [discriminate|]. intros Hmiss.
  destruct (decide (n = name)); [intros Hc; now injection Hc as <- | now apply IH].
Qed.

(** Opening a cache never changes what [caches.match] finds. *)
Lemma storage_match_open (name : string) (s : CacheStorage) (u : string) :
  storage_match (storage_open name s) u = storage_match s u.
Proof.
  unfold storage_open. destruct (storage_get name s); [reflexivity|].
  rewrite storage_match_app. simpl. rewrite lookup_empty.
  now destruct (storage_match s u).
Qed.

Lemma storage_get_put (name u : string) (r : Response) (s : CacheStorage) :
  storage_get name (storage_put name u r s) = (fun c => <[u := r]> c) <$> storage_get name s.
Proof.
  unfold storage_put. induction s as [|[n c] s IH]; simpl; [reflexivity|].
  destruct (decide (n = name)) as [->|Hne]; simpl.
  - now rewrite decide_True.
  - now rewrite decide_False.
Qed.

Lemma storage_get_put_all (name : string) (entries : list (string * Response))
    (s : CacheStorage) :
  storage_get name (storage_put_all name entries s) =
  (fun c => fold_left (fun c ur => <[ur.1 := ur.2]> c) entries c) <$> storage_get name s.
Proof.
  unfold storage_put_all. revert s.
  induction entries as [|[u r] entries IH]; intros s; simpl.
  - now destruct (storage_get name s).
  - rewrite IH, storage_get_put. now destruct (storage_get name s).
Qed.

(** Entries under other URLs survive [cache.addAll]. *)
Lemma addAll_entries_keep (net : Network) (urls : list string)
    (entries : list (string * Response)) (c : gmap string Response) (v : string) :
  mapM (addAll_fetched net) urls = Some entries ->
  v ∉ urls ->
  fold_left (fun c ur => <[ur.1 := ur.2]> c) entries c !! v = c !! v.
Proof.
  rewrite mapM_Some. intros Hall. revert c.
  induction Hall as [|w e urls entries Hwe Hall IH]; intros c Hv; simpl; [reflexivity|].
  unfold addAll_fetched in Hwe.
  destruct (net w) as [rw|]; [|discriminate].
  destruct (addAll_accepts rw); [|discriminate].
  injection Hwe as <-. simpl.
  rewrite IH by set_solver.
  apply lookup_insert_ne. set_solver.
Qed.

(** The entries [cache.addAll] writes are the network's responses. *)
Lemma addAll_entries_lookup (net : Network) (urls : list string)
    (entries : list (string * Response)) (c : gmap string Response) (u : string) :
  mapM (addAll_fetched net) urls = Some entries ->
  u ∈ urls ->
  fold_left (fun c ur => <[ur.1 := ur.2]> c) entries c !! u = net u
  /\ exists r, net u = Some r /\ addAll_accepts r = true.
Proof.
  revert entries c. induction urls as [|v urls IH]; intros entries c Hall Hin.
  - inversion Hin.
  - rewrite mapM_Some in Hall. inversion Hall as [|? e ? entries' Hve Hall']; subst.
    apply mapM_Some in Hall'. simpl.
    destruct (decide (u ∈ urls)) as [Hu|Hu]; [now apply IH|].
    apply elem_of_cons in Hin as [->|Hin]; [|contradiction].
    unfold addAll_fetched in Hve.
    destruct (net v) as [rv|] eqn:Hnet; [|discriminate].
    destruct (addAll_accepts rv) eqn:Hok; [|discriminate].
    injection Hve as <-. simpl. split; [|eauto].
    rewrite (addAll_entries_keep net urls entries' _ v Hall' Hu).
    apply lookup_insert_eq.
Qed.

(** [cache.addAll] rejects as soon as one fetch fails or is refused. *)
Lemma addAll_rejects (net : Network) (urls : list string) (u : string) :
  u ∈ urls -> addAll_fetched net u = None ->
  mapM (addAll_fetched net) urls = None.
Proof.
  intros Hin Hu. destruct (mapM (addAll_fetched net) urls) as [entries|] eqn:Hall;
    [|reflexivity].
  destruct (addAll_entries_lookup net urls entries ∅ u Hall Hin) as (_ & r & Hr & Hok).
  unfold addAll_fetched in Hu. rewrite Hr, Hok in Hu. discriminate.
Qed.

(** ** Promise chains of the listeners, step by step *)

Lemma filter_all {A} (P : A -> Prop) `{forall x, Decision (P x)} (l : list A) :
  (forall x, P x) -> filter P l = l.
Proof.
  intros HP. induction l as [|x l IH]; [reflexivity|].
  rewrite filter_cons_True by apply HP. now rewrite IH.
Qed.

Lemma promise_all_delete (net : Network) (ks : list string) (s : CacheStorage) :
  exists bs, promise_all caches_delete ks net s =
    (Fulfilled bs, filter (fun nc : string * gmap string Response => nc.1 ∉ ks) s,
     CacheDelete <$> ks).
Proof.
  revert s. induction ks as [|k ks IH]; intros s.
  - exists []. cbn [promise_all fmap list_fmap]. unfold resolve.
    rewrite filter_all; [reflexivity | set_solver].
  - destruct (IH (storage_delete k s)) as (bs & Hbs).
    eexists. simpl. unfold andThen at 1. unfold caches_delete at 1.
    unfold andThen at 1. rewrite Hbs. unfold resolve. simpl.
    rewrite app_nil_r. f_equal. f_equal.
    unfold storage_delete. rewrite list_filter_filter.
    apply list_filter_iff. intros nc. set_solver.
Qed.

Lemma filter_current (name : string) (l : list string) (s : CacheStorage) :
  storage_names s ⊆ l ->
  filter (fun nc : string * gmap string Response =>
            nc.1 ∉ filter (fun key => key ≠ name) l) s =
  filter (fun nc : string * gmap string Response => nc.1 = name) s.
Proof.
  unfold storage_names. induction s as [|nc s IH]; intros Hsub; [reflexivity|].
  rewrite !filter_cons. rewrite IH by set_solver.
  assert (Hin : nc.1 ∈ l) by set_solver.
  destruct (decide (nc.1 = name)) as [Heq|Hne].
  - rewrite decide_True; [reflexivity|].
    rewrite list_elem_of_filter. tauto.
  - rewrite decide_False; [reflexivity|].
    rewrite list_elem_of_filter. tauto.
Qed.

(** What the activate listener does to the storage: exactly the caches
    named [CACHE_NAME] survive. *)
Lemma on_activate_storage (net : Network) (s : CacheStorage) :
  on_activate net s =
    (Fulfilled tt,
     filter (fun nc : string * gmap string Response => nc.1 = CACHE_NAME) s,
     (CacheDelete <$> filter (fun key => key ≠ CACHE_NAME) (storage_names s))
       ++ [ClientsClaim]).
Proof.
  unfold on_activate, andThen, caches_keys, perform.
  destruct (promise_all_delete net
              (filter (fun key => key ≠ CACHE_NAME) (storage_names s)) s)
    as (bs & ->).
  now rewrite filter_current.
Qed.

Lemma filter_absent (name : string) (s : CacheStorage) :
  name ∉ storage_names s ->
  filter (fun nc : string * gmap string Response => nc.1 = name) s = [].
Proof.
  unfold storage_names. induction s as [|nc s IH]; intros Hno; [reflexivity|].
  rewrite filter_cons_False by set_solver. apply IH. set_solver.
Qed.

(** The first cache of a name heads the caches of that name; with unique
    names it is the only one. *)
Lemma filter_get (name : string) (s : CacheStorage) (c : gmap string Response) :
  storage_get name s = Some c ->
  exists rest,
    filter (fun nc : string * gmap string Response => nc.1 = name) s = (name, c) :: rest
    /\ (storage_wf s -> rest = []).
Proof.
  unfold storage_wf, storage_names.
  induction s as [|[n c0] s IH]; simpl; [discriminate|].
  destruct (decide (n = name)) as [->|Hne]; intros Hget.
  - injection Hget as ->. rewrite filter_cons_True by reflexivity.
    eexists; split; [reflexivity|].
    intros Hwf. apply NoDup_cons in Hwf as [Hno _]. now apply filter_absent.
  - rewrite filter_cons_False by exact Hne.
    destruct (IH Hget) as (rest & Hrest & Hwf). exists rest; split; [exact Hrest|].
    intros Hnd. apply Hwf. now apply NoDup_cons in Hnd as [_ Hnd].
Qed.

Lemma storage_names_put (name u : string) (r : Response) (s : CacheStorage) :
  storage_names (storage_put name u r s) = storage_names s.
Proof.
  unfold storage_names, storage_put. induction s as [|[n c] s IH]; [reflexivity|].
  cbn [fmap list_fmap] in *. rewrite IH. now destruct (decide ((n, c).1 = name)).
Qed.

Lemma storage_names_put_all (name : string) (entries : list (string * Response))
    (s : CacheStorage) :
  storage_names (storage_put_all name entries s) = storage_names s.
Proof.
  unfold storage_put_all. revert s. induction entries as [|e entries IH]; intros s;
    simpl; [reflexivity|].
  now rewrite IH, storage_names_put.
Qed.

Lemma storage_get_None (name : string) (s : CacheStorage) :
  storage_get name s = None -> name ∉ storage_names s.
Proof.
  unfold storage_names. induction s as [|[n c] s IH]; simpl; [set_solver|].
  destruct (decide (n = name)); [discriminate|]. set_solver.
Qed.

Lemma storage_wf_open (name : string) (s : CacheStorage) :
  storage_wf s -> storage_wf (storage_open name s).
Proof.
  unfold storage_wf, storage_open. intros Hwf.
  destruct (storage_get name s) eqn:Hget; [exact Hwf|].
  unfold storage_names. rewrite fmap_app. apply NoDup_app. split; [exact Hwf|].
  split; [|apply NoDup_singleton].
  intros x Hx Hin. apply list_elem_of_singleton in Hin. subst.
  now apply storage_get_None in Hget.
Qed.

Section Lifecycle.

Variable origin : string.

(** The install listener, settled: all fetched and written, or nothing
    written and no request to skip waiting. *)
Lemma on_install_settles (net : Network) (s : CacheStorage) :
  on_install origin net s =
  match mapM (addAll_fetched net) (absolute origin <$> STATIC_ASSETS) with
  | Some entries =>
      (Fulfilled tt,
       storage_put_all CACHE_NAME entries (storage_open CACHE_NAME s),
       ((NetFetch <$> (absolute origin <$> STATIC_ASSETS))
          ++ (CachePut CACHE_NAME <$> (absolute origin <$> STATIC_ASSETS)))
         ++ [SkipWaiting])
  | None =>
      (Rejected, storage_open CACHE_NAME s,
       NetFetch <$> (absolute origin <$> STATIC_ASSETS))
  end.
Proof.
  unfold on_install, andThen, caches_open, cache_addAll, perform.
  now destruct (mapM (addAll_fetched net) (absolute origin <$> STATIC_ASSETS)).
Qed.

(** After a successful install the cache of this generation holds, for
    every static asset, the response the network gave for it. *)
Lemma on_install_fulfilled (net : Network) (s s1 : CacheStorage) (t : list Effect) :
  on_install origin net s = (Fulfilled tt, s1, t) ->
  exists c, storage_get CACHE_NAME s1 = Some c
    /\ storage_names s1 = storage_names (storage_open CACHE_NAME s)
    /\ forall a, a ∈ STATIC_ASSETS ->
         exists r, net (absolute origin a) = Some r
                   /\ addAll_accepts r = true
                   /\ c !! absolute origin a = Some r.
Proof.
  rewrite on_install_settles.
  destruct (mapM (addAll_fetched net) (absolute origin <$> STATIC_ASSETS))
    as [entries|] eqn:Hall; [|discriminate].
  intros Heq. injection Heq as <- <-.
  rewrite storage_get_put_all, storage_get_open. simpl.
  eexists; split; [reflexivity|]. split; [apply storage_names_put_all|].
  intros a Ha.
  assert (Hin : absolute origin a ∈ absolute origin <$> STATIC_ASSETS)
    by (apply list_elem_of_fmap; eauto).
  destruct (addAll_entries_lookup net _ entries
              (default ∅ (storage_get CACHE_NAME s)) _ Hall Hin)
    as (Hlook & r & Hr & Hok).
  exists r. rewrite Hlook. auto.
Qed.

Lemma on_install_wf (net : Network) (s s1 : CacheStorage) (t : list Effect) :
  storage_wf s -> on_install origin net s = (Fulfilled tt, s1, t) -> storage_wf s1.
Proof.
  intros Hwf Hinst. destruct (on_install_fulfilled net s s1 t Hinst) as (c & _ & Hn & _).
  unfold storage_wf. rewrite Hn. now apply storage_wf_open.
Qed.

End Lifecycle.

(** ** The fetch listener, branch by branch *)

Lemma cache_first_hit (request : Request) (net : Network) (s : CacheStorage)
    (cached : Response) :
  storage_match s (url request) = Some cached ->
  respondWith (cache_first request) net s =
    (Respond cached, s, [CacheLookup (url request)]).
Proof.
  intros Hhit. unfold respondWith, cache_first, andThen, caches_match.
  rewrite Hhit. reflexivity.
Qed.

Lemma cache_first_miss (request : Request) (net : Network) (s : CacheStorage)
    (networkResponse : Response) :
  storage_match s (url request) = None ->
  net (url request) = Some networkResponse ->
  respondWith (cache_first request) net s =
    (Respond networkResponse,
     (if (status networkResponse =? 200)%Z then storage_open CACHE_NAME s else s),
     [CacheLookup (url request); NetFetch (url request)]).
Proof.
  intros Hmiss Hnet.
  unfold respondWith, cache_first, andThen, unawaited, clone, caches_open,
    caches_match, fetch.
  rewrite Hmiss, Hnet.
  now destruct (status networkResponse =? 200)%Z.
Qed.

Lemma cache_first_storage (request : Request) (net : Network) (s : CacheStorage) :
  (respondWith (cache_first request) net s).1.2 = s
  \/ (respondWith (cache_first request) net s).1.2 = storage_open CACHE_NAME s.
Proof.
  destruct (storage_match s (url request)) as [cached|] eqn:Hm.
  - left. now rewrite (cache_first_hit _ _ _ _ Hm).
  - destruct (net (url request)) as [r|] eqn:Hnet.
    + rewrite (cache_first_miss _ _ _ _ Hm Hnet).
      destruct (status r =? 200)%Z; [now right | now left].
    + left. unfold respondWith, cache_first, andThen, caches_match, fetch.
      now rewrite Hm, Hnet.
Qed.

Section FetchListener.

Variable origin : string.

Lemma network_first_online (request : Request) (net : Network) (s : CacheStorage)
    (r : Response) :
  net (url request) = Some r ->
  respondWith (network_first origin request) net s =
    (Respond r, s, [NetFetch (url request)]).
Proof.
  intros Hnet. unfold respondWith, network_first, catch, andThen, fetch, resolve.
  now rewrite Hnet.
Qed.

Lemma network_first_offline_navigate (request : Request) (net : Network)
    (s : CacheStorage) :
  net (url request) = None ->
  mode request = "navigate" ->
  respondWith (network_first origin request) net s =
    (match storage_match s (absolute origin OFFLINE_PAGE) with
     | Some page => Respond page
     | None => RespondUndefined
     end, s,
     [NetFetch (url request); CacheLookup (absolute origin OFFLINE_PAGE)]).
Proof.
  intros Hnet Hmode.
  unfold respondWith, network_first, catch, andThen, fetch, caches_match.
  rewrite Hnet, Hmode. cbn [String.eqb Ascii.eqb Bool.eqb].
  now destruct (storage_match s (absolute origin OFFLINE_PAGE)).
Qed.

Lemma network_first_offline_other (request : Request) (net : Network)
    (s : CacheStorage) :
  net (url request) = None ->
  mode request <> "navigate" ->
  respondWith (network_first origin request) net s =
    (Respond (mkResponse 503 ""), s, [NetFetch (url request)]).
Proof.
  intros Hnet Hmode.
  unfold respondWith, network_first, catch, andThen, fetch, resolve.
  rewrite Hnet. apply String.eqb_neq in Hmode. now rewrite Hmode.
Qed.

Lemma on_fetch_static (request : Request) :
  method request = "GET" -> is_static (url request) = true ->
  on_fetch origin request = respondWith (cache_first request).
Proof.
  intros Hget Hst. unfold on_fetch. rewrite Hget, Hst. reflexivity.
Qed.

Lemma on_fetch_dynamic (request : Request) :
  method request = "GET" -> is_static (url request) = false ->
  on_fetch origin request = respondWith (network_first origin request).
Proof.
  intros Hget Hst. unfold on_fetch. rewrite Hget, Hst. reflexivity.
Qed.

Lemma network_first_storage (request : Request) (net : Network) (s : CacheStorage) :
  (respondWith (network_first origin request) net s).1.2 = s.
Proof.
  unfold respondWith, network_first, catch, andThen, fetch, caches_match, resolve.
  destruct (net (url request)); [reflexivity|].
  destruct (String.eqb (mode request) "navigate"); [|reflexivity].
  now destruct (storage_match s (absolute origin OFFLINE_PAGE)).
Qed.

Lemma is_static_absolute (a : string) :
  a ∈ STATIC_ASSETS -> is_static (absolute origin a) = true.
Proof.
  intros Ha. unfold is_static. apply existsb_exists. exists a. split.
  - now apply list_elem_of_In.
  - apply endsWith_append.
Qed.

(** What [caches.match] finds right after install and activation. *)
Lemma activated_match (net net' : Network) (s s1 : CacheStorage) (t : list Effect)
    (a : string) :
  on_install origin net s = (Fulfilled tt, s1, t) ->
  a ∈ STATIC_ASSETS ->
  exists r, net (absolute origin a) = Some r
    /\ storage_match (on_activate net' s1).1.2 (absolute origin a) = Some r.
Proof.
  intros Hinst Ha.
  destruct (on_install_fulfilled origin net s s1 t Hinst) as (c & Hc & _ & Hall).
  destruct (Hall a Ha) as (r & Hr & _ & Hcr).
  exists r. split; [exact Hr|].
  rewrite on_activate_storage. cbn [fst snd].
  destruct (filter_get CACHE_NAME s1 c Hc) as (rest & -> & _).
  simpl. now rewrite Hcr.
Qed.

(** While this worker serves, the Offline Page stays in the cache. *)
Lemma Serving_offline_page (s : CacheStorage) :
  Serving origin s -> is_Some (storage_match s (absolute origin OFFLINE_PAGE)).
Proof.
  induction 1 as [net net' s s1 t Hinst | net request s Hs IH].
  - destruct (activated_match net net' s s1 t OFFLINE_PAGE Hinst) as (r & _ & ->);
      [|eauto].
    apply list_elem_of_In. simpl. tauto.
  - unfold on_fetch.
    destruct (negb (String.eqb (method request) "GET")); [exact IH|].
    destruct (is_static (url request)).
    + destruct (cache_first_storage request net s) as [-> | ->]; [exact IH|].
      now rewrite storage_match_open.
    + now rewrite network_first_storage.
Qed.

End FetchListener.

(** * The specification's properties *)

Section OfflineCacheManager.

Variable origin : string.

(** C1. For every identifier of the static Asset Set, after a successful
    Install followed by Activate, handling a GET request for that
    identifier answers with the response cached at install time, and the
    only effect is the cache lookup: no network fetch is performed and
    the storage is left as it was. *)
Theorem static_asset_served_from_cache
    (net net' net'' : Network) (s s1 : CacheStorage) (t : list Effect)
    (a mode : string) :
  on_install origin net s = (Fulfilled tt, s1, t) ->
  a ∈ STATIC_ASSETS ->
  let current := (on_activate net' s1).1.2 in
  exists r,
    net (absolute origin a) = Some r
    /\ on_fetch origin (mkRequest "GET" (absolute origin a) mode) net'' current =
         (Respond r, current, [CacheLookup (absolute origin a)])
    /\ (forall u,
         NetFetch u ∉
           (on_fetch origin (mkRequest "GET" (absolute origin a) mode) net'' current).2).
Proof.
  intros Hinst Ha current.
  destruct (activated_match origin net net' s s1 t a Hinst Ha) as (r & Hr & Hm).
  assert (Hhit :
    on_fetch origin (mkRequest "GET" (absolute origin a) mode) net'' current =
      (Respond r, current, [CacheLookup (absolute origin a)])).
  { rewrite on_fetch_static; [|reflexivity|now apply is_static_absolute].
    now apply cache_first_hit. }
  exists r. split; [exact Hr|]. split; [exact Hhit|].
  rewrite Hhit. intros u Hin. apply list_elem_of_singleton in Hin. discriminate.
Qed.

(** C2. Install is atomic: if the fetch of one asset of the Asset Set
    fails (the network rejects it, or answers with a status that
    cache.addAll refuses), the install promise rejects, no entry is
    written and skipWaiting is never requested; the only change to the
    storage is that the (empty) cache of the attempted generation exists;
    every other cache is untouched, caches.match finds exactly what it
    found before, and the worker is not activated. *)
Theorem install_is_atomic (net : Network) (s : CacheStorage) (a : string) :
  a ∈ STATIC_ASSETS ->
  addAll_fetched net (absolute origin a) = None ->
  exists s1 t,
    on_install origin net s = (Rejected, s1, t)
    /\ (SkipWaiting ∉ t)
    /\ (forall name u, CachePut name u ∉ t)
    /\ storage_get CACHE_NAME s1 = Some (default ∅ (storage_get CACHE_NAME s))
    /\ (forall name, name ≠ CACHE_NAME -> storage_get name s1 = storage_get name s)
    /\ (forall u, storage_match s1 u = storage_match s u)
    /\ register origin net s = (false, s1).
Proof.
  intros Ha Hfail.
  assert (Hrej : mapM (addAll_fetched net) (absolute origin <$> STATIC_ASSETS) = None).
  { apply (addAll_rejects net _ (absolute origin a)); [|exact Hfail].
    apply list_elem_of_fmap. eauto. }
  exists (storage_open CACHE_NAME s),
         (NetFetch <$> (absolute origin <$> STATIC_ASSETS)).
  assert (Hinst : on_install origin net s =
            (Rejected, storage_open CACHE_NAME s,
             NetFetch <$> (absolute origin <$> STATIC_ASSETS)))
    by (now rewrite on_install_settles, Hrej).
  split; [exact Hinst|].
  split; [intros Hin; apply list_elem_of_fmap in Hin as (? & ? & _); discriminate|].
  split; [intros name u Hin; apply list_elem_of_fmap in Hin as (? & ? & _); discriminate|].
  split; [apply storage_get_open|].
  split; [intros name Hne; now apply storage_get_open_ne|].
  split; [intros u; apply storage_match_open|].
  unfold register. now rewrite Hinst.
Qed.

(** C3. For any number of previously stored generations (with unique
    names), Activate after a successful Install deletes every cache whose
    name differs from this generation's name: exactly one generation is
    left in storage, the one just installed. *)
Theorem activate_leaves_one_generation
    (net net' : Network) (s s1 : CacheStorage) (t : list Effect) :
  storage_wf s ->
  on_install origin net s = (Fulfilled tt, s1, t) ->
  exists c,
    storage_get CACHE_NAME s1 = Some c
    /\ (on_activate net' s1).1.2 = [(CACHE_NAME, c)]
    /\ (on_activate net' s1).2 =
         (CacheDelete <$> filter (fun key => key ≠ CACHE_NAME) (storage_names s1))
           ++ [ClientsClaim].
Proof.
  intros Hwf Hinst.
  pose proof (on_install_wf origin net s s1 t Hwf Hinst) as Hwf1.
  destruct (on_install_fulfilled origin net s s1 t Hinst) as (c & Hc & _ & _).
  exists c. split; [exact Hc|].
  rewrite on_activate_storage. cbn [fst snd]. split; [|reflexivity].
  destruct (filter_get CACHE_NAME s1 c Hc) as (rest & -> & Hrest).
  now rewrite (Hrest Hwf1).
Qed.

(** C4. While this worker serves, for every GET request that does not
    match the static Asset Set and whose network fetch fails: a
    navigation is answered with the cached Offline Page entry itself (so
    with the entry's own status), any other request with an empty body
    and status 503; either way the page receives a response, never a
    rejection, and the storage is unchanged. *)
Theorem network_failure_falls_back
    (net : Network) (s : CacheStorage) (request : Request) :
  Serving origin s ->
  method request = "GET" ->
  is_static (url request) = false ->
  net (url request) = None ->
  exists page,
    storage_match s (absolute origin OFFLINE_PAGE) = Some page
    /\ ((mode request = "navigate"
         /\ on_fetch origin request net s =
              (Respond page, s,
               [NetFetch (url request); CacheLookup (absolute origin OFFLINE_PAGE)]))
        \/ (mode request ≠ "navigate"
            /\ on_fetch origin request net s =
                 (Respond (mkResponse 503 ""), s, [NetFetch (url request)]))).
Proof.
  intros Hs Hget Hdyn Hnet.
  destruct (Serving_offline_page origin s Hs) as (page & Hpage).
  exists page. split; [exact Hpage|].
  rewrite (on_fetch_dynamic origin request Hget Hdyn).
  destruct (decide (mode request = "navigate")) as [Hnav|Hnav].
  - left. split; [exact Hnav|].
    rewrite (network_first_offline_navigate origin request net s Hnet Hnav).
    now rewrite Hpage.
  - right. split; [exact Hnav|].
    now apply network_first_offline_other.
Qed.

(** C5, as the code has it. For every GET request matching the static
    Asset Set whose Cached Entry is present, the cached response is
    returned at once; the only effect is the cache lookup, so no network
    fetch is performed and the stored entry is left as it is. *)
Theorem cache_hit_returns_cached_without_fetch
    (net : Network) (s : CacheStorage) (request : Request) (cached : Response) :
  method request = "GET" ->
  is_static (url request) = true ->
  storage_match s (url request) = Some cached ->
  on_fetch origin request net s = (Respond cached, s, [CacheLookup (url request)])
  /\ (forall u, NetFetch u ∉ (on_fetch origin request net s).2).
Proof.
  intros Hget Hst Hhit.
  rewrite (on_fetch_static origin request Hget Hst).
  rewrite (cache_first_hit request net s cached Hhit). split; [reflexivity|].
  intros u Hin. apply list_elem_of_singleton in Hin. discriminate.
Qed.

(** C6, as the code behaves. For every GET request matching the static
    Asset Set whose Cached Entry is absent, a network fetch is performed
    and its response is returned whatever its status; but nothing is
    stored, not even when the status is 200: no cache put is performed,
    the only change to the storage is that caches.open may have created
    this generation's (empty) cache, caches.match finds what it found
    before, and no entry for the request URL exists afterwards. *)
Theorem cache_miss_fetches_but_stores_nothing
    (net : Network) (s : CacheStorage) (request : Request)
    (networkResponse : Response) :
  method request = "GET" ->
  is_static (url request) = true ->
  storage_match s (url request) = None ->
  net (url request) = Some networkResponse ->
  let result := on_fetch origin request net s in
  result.1.1 = Respond networkResponse
  /\ (NetFetch (url request) ∈ result.2)
  /\ (forall name u, CachePut name u ∉ result.2)
  /\ result.1.2 =
       (if (status networkResponse =? 200)%Z then storage_open CACHE_NAME s else s)
  /\ (forall k, storage_match result.1.2 k = storage_match s k)
  /\ storage_match result.1.2 (url request) = None
  /\ (storage_get CACHE_NAME result.1.2 ≫= (.!! url request)) = None.
Proof.
  intros Hget Hst Hmiss Hnet result. subst result.
  rewrite (on_fetch_static origin request Hget Hst).
  rewrite (cache_first_miss request net s networkResponse Hmiss Hnet).
  cbn [fst snd].
  assert (Hsame : forall k,
            storage_match
              (if (status networkResponse =? 200)%Z
               then storage_open CACHE_NAME s else s) k = storage_match s k).
  { intros k. destruct (status networkResponse =? 200)%Z;
      [apply storage_match_open | reflexivity]. }
  split; [reflexivity|].
  split; [apply list_elem_of_In; simpl; tauto|].
  split; [intros name u Hin; not_listed Hin|].
  split; [reflexivity|]. split; [exact Hsame|].
  split; [now rewrite Hsame|].
  destruct (storage_get CACHE_NAME
              (if (status networkResponse =? 200)%Z
               then storage_open CACHE_NAME s else s)) as [c|] eqn:Hc;
    [|reflexivity].
  simpl. eapply storage_match_None_get; [|exact Hc].
  now rewrite Hsame.
Qed.

(** C7. For every request whose method is not GET the listener returns
    without calling respondWith: the request passes through to the
    network untouched, no cache is read or written, and the storage is
    unchanged. *)
Theorem non_get_passes_through
    (net : Network) (s : CacheStorage) (request : Request) :
  method request ≠ "GET" ->
  on_fetch origin request net s = (PassThrough, s, []).
Proof.
  intros Hmethod. unfold on_fetch.
  apply String.eqb_neq in Hmethod. rewrite Hmethod. reflexivity.
Qed.

(** C8, as the code has it. For every dynamic (non-static) GET request
    whose network fetch succeeds, the network response is returned
    directly and nothing is written: the fetch is the only effect and
    the storage is unchanged, so no Cached Entry is created or updated. *)
Theorem dynamic_success_leaves_cache_unchanged
    (net : Network) (s : CacheStorage) (request : Request) (r : Response) :
  method request = "GET" ->
  is_static (url request) = false ->
  net (url request) = Some r ->
  on_fetch origin request net s = (Respond r, s, [NetFetch (url request)]).
Proof.
  intros Hget Hdyn Hnet.
  rewrite (on_fetch_dynamic origin request Hget Hdyn).
  now apply network_first_online.
Qed.

(** C9. The path [/evil/index.html] is not a member of the static Asset
    Set, yet a GET request for it is classified as static, because its
    URL ends with [/index.html], and is served by the cache-first
    branch. *)
Theorem suffix_match_classifies_foreign_path_as_static :
  ("/evil/index.html" ∉ STATIC_ASSETS)
  /\ endsWith (absolute origin "/evil/index.html") "/index.html" = true
  /\ is_static (absolute origin "/evil/index.html") = true
  /\ forall mode net s,
       on_fetch origin (mkRequest "GET" (absolute origin "/evil/index.html") mode) net s
       = respondWith
           (cache_first (mkRequest "GET" (absolute origin "/evil/index.html") mode))
           net s.
Proof.
  assert (Hends : endsWith (absolute origin "/evil/index.html") "/index.html" = true).
  { unfold absolute.
    change "/evil/index.html" with ("/evil" +:+ "/index.html").
    rewrite <- append_assoc. apply endsWith_append. }
  assert (Hst : is_static (absolute origin "/evil/index.html") = true).
  { unfold is_static. apply existsb_exists. exists "/index.html".
    split; [simpl; tauto | exact Hends]. }
  split; [|split; [exact Hends | split; [exact Hst|]]].
  - intros Hin. apply list_elem_of_In in Hin. simpl in Hin.
    repeat (destruct Hin as [Hin|Hin]; [discriminate|]). exact Hin.
  - intros mode net s. now rewrite on_fetch_static.
Qed.

End OfflineCacheManager.

(** ** The native formulas *)

Section NativeFormulas.

Import PhysicsEngine.

(** C10, as the code has it. Both formulas are total and guard their
    inputs: calculate_stress returns 0 without dividing whenever
    area <= 0, and calculate_displacement returns 0 without dividing
    whenever area <= 0 or modulus <= 0; when calculate_stress divides,
    the denominator is the area and it is not <= 0; when
    calculate_displacement divides, the denominator is the rounded
    product of an area and a modulus neither of which is <= 0. *)
Theorem guarded_division (force length area modulus : float) :
  (fle area zero = true ->
     calculate_stress force area = zero
     /\ (calculate_stress_run force area).2 = [])
  /\ (fle area zero = true \/ fle modulus zero = true ->
      calculate_displacement force length area modulus = zero
      /\ (calculate_displacement_run force length area modulus).2 = [])
  /\ (forall d, d ∈ (calculate_stress_run force area).2 ->
      d = area /\ fle d zero = false)
  /\ (forall d, d ∈ (calculate_displacement_run force length area modulus).2 ->
      d = fmul area modulus /\ fle area zero = false /\ fle modulus zero = false).
Proof.
  unfold calculate_stress, calculate_displacement,
    calculate_stress_run, calculate_displacement_run, fdiv.
  split; [intros ->; split; reflexivity|].
  split; [intros [-> | ->]; [|rewrite orb_true_r]; split; reflexivity|].
  split.
  - intros d. destruct (fle area zero) eqn:Ha; cbn [snd]; intros Hd.
    + inversion Hd.
    + apply list_elem_of_singleton in Hd. now subst.
  - intros d. destruct (fle area zero) eqn:Ha, (fle modulus zero) eqn:Hm;
      cbn [orb snd]; intros Hd; try (now inversion Hd).
Qed.

End NativeFormulas.

(** * The properties at the concrete deployment *)

(** The install listener at the example: the new generation is installed
    beside the previous one. *)
Lemma example_install :
  on_install Example.origin Example.network_up Example.previous =
    (Fulfilled tt, Example.installed, Example.install_trace).
Proof.
  assert (Hsettled : forall x : Settled unit * CacheStorage * list Effect,
            x.1.1 = Fulfilled tt -> x = (Fulfilled tt, x.1.2, x.2)).
  { intros [[r s] t]. simpl. now intros ->. }
  apply Hsettled. vm_compute. reflexivity.
Defined.

Lemma example_serving : Serving Example.origin Example.current.
Proof.
  exact (Serving_activated Example.origin Example.network_up Example.network_up
           Example.previous Example.installed Example.install_trace example_install).
Defined.

(** C1 at the example: [/index.html] right after activation, with the
    network down. *)
Lemma static_asset_served_from_cache_witness :
  exists r,
    Example.network_up (absolute Example.origin "/index.html") = Some r
    /\ on_fetch Example.origin
         (mkRequest "GET" (absolute Example.origin "/index.html") "navigate")
         Example.network_down Example.current =
         (Respond r, Example.current,
          [CacheLookup (absolute Example.origin "/index.html")])
    /\ (forall u,
         NetFetch u ∉
           (on_fetch Example.origin
              (mkRequest "GET" (absolute Example.origin "/index.html") "navigate")
              Example.network_down Example.current).2).
Proof.
  apply (static_asset_served_from_cache Example.origin
           Example.network_up Example.network_up Example.network_down
           Example.previous Example.installed Example.install_trace
           "/index.html" "navigate" example_install).
  listed.
Defined.

(** C2 at the example: [/index.html] cannot be fetched. *)
Lemma install_is_atomic_witness :
  addAll_fetched Example.network_without_index
    (absolute Example.origin "/index.html") = None
  /\ exists s1 t,
      on_install Example.origin Example.network_without_index Example.previous =
        (Rejected, s1, t)
      /\ (SkipWaiting ∉ t)
      /\ (forall name u, CachePut name u ∉ t)
      /\ storage_get CACHE_NAME s1 =
           Some (default ∅ (storage_get CACHE_NAME Example.previous))
      /\ (forall name, name ≠ CACHE_NAME ->
           storage_get name s1 = storage_get name Example.previous)
      /\ (forall u, storage_match s1 u = storage_match Example.previous u)
      /\ register Example.origin Example.network_without_index Example.previous =
           (false, s1).
Proof.
  split; [vm_compute; reflexivity|].
  apply (install_is_atomic Example.origin Example.network_without_index
           Example.previous "/index.html").
  - listed.
  - vm_compute. reflexivity.
Defined.

(** C3 at the example: the previous generation is deleted. *)
Lemma activate_leaves_one_generation_witness :
  storage_wf Example.previous
  /\ exists c,
      storage_get CACHE_NAME Example.installed = Some c
      /\ (on_activate Example.network_up Example.installed).1.2 = [(CACHE_NAME, c)]
      /\ (on_activate Example.network_up Example.installed).2 =
           (CacheDelete <$> filter (fun key => key ≠ CACHE_NAME)
                              (storage_names Example.installed))
             ++ [ClientsClaim].
Proof.
  assert (Hwf : storage_wf Example.previous).
  { unfold storage_wf. simpl. apply NoDup_singleton. }
  split; [exact Hwf|].
  exact (activate_leaves_one_generation Example.origin
           Example.network_up Example.network_up
           Example.previous Example.installed Example.install_trace
           Hwf example_install).
Defined.

(** C4 at the example: a navigation to [/about] with the network down. *)
Lemma network_failure_falls_back_witness :
  exists page,
    storage_match Example.current (absolute Example.origin OFFLINE_PAGE) = Some page
    /\ ((mode (Example.get "/about" "navigate") = "navigate"
         /\ on_fetch Example.origin (Example.get "/about" "navigate")
              Example.network_down Example.current =
              (Respond page, Example.current,
               [NetFetch (url (Example.get "/about" "navigate"));
                CacheLookup (absolute Example.origin OFFLINE_PAGE)]))
        \/ (mode (Example.get "/about" "navigate") ≠ "navigate"
            /\ on_fetch Example.origin (Example.get "/about" "navigate")
                 Example.network_down Example.current =
                 (Respond (mkResponse 503 ""), Example.current,
                  [NetFetch (url (Example.get "/about" "navigate"))]))).
Proof.
  apply (network_failure_falls_back Example.origin Example.network_down
           Example.current (Example.get "/about" "navigate") example_serving).
  - reflexivity.
  - vm_compute. reflexivity.
  - reflexivity.
Defined.

(** C5 as stated fails: with [/index.html] cached and a fresher response
    available from the network, the listener answers with the cached
    entry, performs no fetch at all, and the stored entry stays the stale
    one. *)
Lemma cache_hit_performs_no_refresh :
  let request := Example.get "/index.html" "cors" in
  let result := on_fetch Example.origin request Example.network_up Example.stale in
  method request = "GET"
  /\ is_static (url request) = true
  /\ storage_match Example.stale (url request) = Some (mkResponse 200 "stale index")
  /\ Example.network_up (url request) =
       Some (mkResponse 200 "fresh https://phyarch.app/index.html")
  /\ result = (Respond (mkResponse 200 "stale index"), Example.stale,
               [CacheLookup (url request)])
  /\ ~ (NetFetch (url request) ∈ result.2)
  /\ storage_match result.1.2 (url request) ≠ Example.network_up (url request).
Proof.
  assert (Hresult :
    on_fetch Example.origin (Example.get "/index.html" "cors")
      Example.network_up Example.stale =
    (Respond (mkResponse 200 "stale index"), Example.stale,
     [CacheLookup (url (Example.get "/index.html" "cors"))])).
  { vm_compute. reflexivity. }
  cbv zeta. rewrite Hresult. cbn [fst snd].
  repeat split; try (vm_compute; reflexivity).
  - intros Hin. not_listed Hin.
  - vm_compute. discriminate.
Qed.

(** C5 as the code has it, at the same input. *)
Lemma cache_hit_returns_cached_without_fetch_witness :
  on_fetch Example.origin (Example.get "/index.html" "cors")
    Example.network_up Example.stale =
    (Respond (mkResponse 200 "stale index"), Example.stale,
     [CacheLookup (url (Example.get "/index.html" "cors"))])
  /\ (forall u,
       NetFetch u ∉ (on_fetch Example.origin (Example.get "/index.html" "cors")
                       Example.network_up Example.stale).2).
Proof.
  apply (cache_hit_returns_cached_without_fetch Example.origin Example.network_up
           Example.stale (Example.get "/index.html" "cors")
           (mkResponse 200 "stale index")).
  - reflexivity.
  - vm_compute. reflexivity.
  - vm_compute. reflexivity.
Defined.

(** C6 at the example: the directory URL [/docs/] is classified as
    static, is not cached, and the network answers 200. *)
Lemma cache_miss_fetches_but_stores_nothing_witness :
  let request := Example.get "/docs/" "navigate" in
  let networkResponse := mkResponse 200 "fresh https://phyarch.app/docs/" in
  let result := on_fetch Example.origin request Example.network_up Example.current in
  result.1.1 = Respond networkResponse
  /\ (NetFetch (url request) ∈ result.2)
  /\ (forall name u, CachePut name u ∉ result.2)
  /\ result.1.2 =
       (if (status networkResponse =? 200)%Z
        then storage_open CACHE_NAME Example.current else Example.current)
  /\ (forall k, storage_match result.1.2 k = storage_match Example.current k)
  /\ storage_match result.1.2 (url request) = None
  /\ (storage_get CACHE_NAME result.1.2 ≫= (.!! url request)) = None.
Proof.
  apply (cache_miss_fetches_but_stores_nothing Example.origin Example.network_up
           Example.current (Example.get "/docs/" "navigate")
           (mkResponse 200 "fresh https://phyarch.app/docs/")).
  - reflexivity.
  - vm_compute. reflexivity.
  - vm_compute. reflexivity.
  - reflexivity.
Defined.

(** C7 at the example: a POST. *)
Lemma non_get_passes_through_witness :
  on_fetch Example.origin (mkRequest "POST" "https://phyarch.app/index.html" "cors")
    Example.network_up Example.current = (PassThrough, Example.current, []).
Proof.
  apply (non_get_passes_through Example.origin Example.network_up Example.current
           (mkRequest "POST" "https://phyarch.app/index.html" "cors")).
  simpl. discriminate.
Defined.

(** C8 as stated fails: a dynamic GET request whose fetch succeeds, twice
    in a row, leaves the storage as it was; no entry for it exists before,
    between or after. *)
Lemma dynamic_response_is_not_cached :
  let request := Example.get "/api/data" "cors" in
  let first := on_fetch Example.origin request Example.network_up Example.current in
  let second := on_fetch Example.origin request Example.network_up first.1.2 in
  method request = "GET"
  /\ is_static (url request) = false
  /\ first.1.1 = Respond (mkResponse 200 "fresh https://phyarch.app/api/data")
  /\ first.1.2 = Example.current
  /\ storage_match first.1.2 (url request) = None
  /\ second.1.1 = Respond (mkResponse 200 "fresh https://phyarch.app/api/data")
  /\ second.1.2 = Example.current
  /\ storage_match second.1.2 (url request) = None
  /\ (forall name u, ~ (CachePut name u ∈ first.2 ++ second.2)).
Proof.
  assert (Hfirst :
    on_fetch Example.origin (Example.get "/api/data" "cors")
      Example.network_up Example.current =
    (Respond (mkResponse 200 "fresh https://phyarch.app/api/data"), Example.current,
     [NetFetch (url (Example.get "/api/data" "cors"))])).
  { rewrite on_fetch_dynamic; [|reflexivity|vm_compute; reflexivity].
    now apply network_first_online. }
  cbv zeta. rewrite Hfirst. cbn [fst snd]. rewrite Hfirst. cbn [fst snd].
  repeat split; try (vm_compute; reflexivity).
  intros name u Hin. not_listed Hin.
Qed.

(** C8 as the code has it, at the same input. *)
Lemma dynamic_success_leaves_cache_unchanged_witness :
  on_fetch Example.origin (Example.get "/api/data" "cors")
    Example.network_up Example.current =
    (Respond (mkResponse 200 "fresh https://phyarch.app/api/data"), Example.current,
     [NetFetch (url (Example.get "/api/data" "cors"))]).
Proof.
  apply (dynamic_success_leaves_cache_unchanged Example.origin Example.network_up
           Example.current (Example.get "/api/data" "cors")
           (mkResponse 200 "fresh https://phyarch.app/api/data")).
  - reflexivity.
  - vm_compute. reflexivity.
  - reflexivity.
Defined.

(** C10 as stated fails for calculate_displacement: with area and modulus
    both 2^-100 (valid, positive binary32 values) neither guard fires,
    their product rounds to +0, and the function divides by that zero
    (a denominator that is <= 0) and returns +infinity. *)
Lemma displacement_divides_by_zero :
  valid_binary PhysicsEngine.prec PhysicsEngine.emax Example.tiny = true
  /\ valid_binary PhysicsEngine.prec PhysicsEngine.emax Example.one = true
  /\ PhysicsEngine.fle Example.tiny PhysicsEngine.zero = false
  /\ PhysicsEngine.calculate_displacement_run
       Example.one Example.one Example.tiny Example.tiny =
       (S754_infinity false, [PhysicsEngine.zero])
  /\ PhysicsEngine.fle PhysicsEngine.zero PhysicsEngine.zero = true
  /\ ~ (forall force length area modulus d,
          d ∈ (PhysicsEngine.calculate_displacement_run force length area modulus).2 ->
          PhysicsEngine.fle d PhysicsEngine.zero = false).
Proof.
  repeat split; try (vm_compute; reflexivity).
  intros Hall.
  specialize (Hall Example.one Example.one Example.tiny Example.tiny PhysicsEngine.zero).
  assert (Hin : PhysicsEngine.zero ∈
            (PhysicsEngine.calculate_displacement_run
               Example.one Example.one Example.tiny Example.tiny).2)
    by (vm_compute; apply list_elem_of_here).
  apply Hall in Hin. vm_compute in Hin. discriminate.
Qed.

(** C10 as the code has it, at a negative area. *)
Lemma guarded_division_witness :
  (PhysicsEngine.calculate_stress Example.one Example.minus_one = PhysicsEngine.zero
   /\ (PhysicsEngine.calculate_stress_run Example.one Example.minus_one).2 = [])
  /\ (PhysicsEngine.calculate_displacement
        Example.one Example.one Example.minus_one Example.one = PhysicsEngine.zero
      /\ (PhysicsEngine.calculate_displacement_run
            Example.one Example.one Example.minus_one Example.one).2 = []).
Proof.
  destruct (guarded_division Example.one Example.one Example.minus_one Example.one)
    as (Hstress & Hdisplacement & _).
  split; [apply Hstress | apply Hdisplacement; left]; reflexivity.
Defined.

(** * Further properties of the service worker *)

Lemma append_cons (ch : ascii) (a b : string) :
  String ch a +:+ b = String ch (a +:+ b).
Proof. reflexivity. Qed.

Lemma substring_split (n m : nat) (s : string) :
  (n + m)%nat = String.length s ->
  substring 0 n s +:+ substring n m s = s.
Proof.
  revert s. induction n as [|n IH]; intros s Hlen.
  - simpl in Hlen. subst m. rewrite substring_whole. now destruct s.
  - destruct s as [|ch s]; [discriminate|].
    simpl in Hlen. injection Hlen as Hlen.
    simpl substring. rewrite append_cons. now rewrite IH.
Qed.

Lemma append_inj_l (p a b : string) : p +:+ a = p +:+ b -> a = b.
Proof.
  induction p as [|ch p IH]; [trivial|].
  rewrite !append_cons. intros Heq. injection Heq as Heq. now apply IH.
Qed.

(** [endsWith] holds exactly of the strings that are some prefix followed
    by the searched string. *)
Lemma endsWith_true_iff (s search : string) :
  endsWith s search = true <-> exists p, s = p +:+ search.
Proof.
  split.
  - unfold endsWith. remember (String.length search) as k eqn:Hk.
    destruct (Nat.ltb_spec (String.length s) k) as [Hlt|Hle]; [discriminate|].
    intros Heq. apply String.eqb_eq in Heq.
    exists (substring 0 (String.length s - k) s).
    rewrite <- Heq. symmetry. apply substring_split. lia.
  - intros (p & ->). apply endsWith_append.
Qed.

Lemma storage_match_put_ne (name u : string) (r : Response) (s : CacheStorage)
    (k : string) :
  k ≠ u -> storage_match (storage_put name u r s) k = storage_match s k.
Proof.
  intros Hne. unfold storage_put. induction s as [|[n c] s IH]; [reflexivity|].
  cbn [fmap list_fmap storage_match fst snd].
  destruct (decide (n = name)); cbn [storage_match].
  - rewrite lookup_insert_ne by congruence.
    fold (storage_put name u r s) in *.
    destruct (c !! k); [reflexivity | exact IH].
  - destruct (c !! k); [reflexivity | exact IH].
Qed.

Lemma storage_get_put_ne (name name' u : string) (r : Response) (s : CacheStorage) :
  name' ≠ name ->
  storage_get name' (storage_put name u r s) = storage_get name' s.
Proof.
  intros Hne. unfold storage_put. induction s as [|[n c] s IH]; [reflexivity|].
  cbn [fmap list_fmap storage_get fst snd].
  destruct (decide (n = name)) as [->|Hn]; cbn [storage_get];
    (destruct (decide _); [congruence || reflexivity | exact IH]).
Qed.

Lemma storage_get_put_all_ne (name name' : string) (entries : list (string * Response))
    (s : CacheStorage) :
  name' ≠ name ->
  storage_get name' (storage_put_all name entries s) = storage_get name' s.
Proof.
  intros Hne. unfold storage_put_all. revert s.
  induction entries as [|e entries IH]; intros s; simpl; [reflexivity|].
  now rewrite IH, storage_get_put_ne.
Qed.

Lemma storage_match_put_all_ne (name : string) (entries : list (string * Response))
    (s : CacheStorage) (k : string) :
  k ∉ entries.*1 ->
  storage_match (storage_put_all name entries s) k = storage_match s k.
Proof.
  unfold storage_put_all. revert s.
  induction entries as [|e entries IH]; intros s Hk; simpl; [reflexivity|].
  rewrite IH by set_solver. apply storage_match_put_ne. set_solver.
Qed.

(** The URLs [cache.addAll] writes are the URLs it was given. *)
Lemma addAll_entries_urls (net : Network) (urls : list string)
    (entries : list (string * Response)) :
  mapM (addAll_fetched net) urls = Some entries -> entries.*1 = urls.
Proof.
  rewrite mapM_Some. induction 1 as [|u e urls entries Hue _ IH]; [reflexivity|].
  unfold addAll_fetched in Hue. destruct (net u) as [r|]; [|discriminate].
  destruct (addAll_accepts r); [|discriminate].
  injection Hue as <-. cbn [fmap list_fmap fst]. now rewrite <- IH.
Qed.

Lemma storage_match_filter_None (P : string * gmap string Response -> Prop)
    `{forall x, Decision (P x)} (s : CacheStorage) (k : string) :
  storage_match s k = None -> storage_match (filter P s) k = None.
Proof.
  induction s as [|[n c] s IH]; [trivial|]. simpl.
  destruct (c !! k) eqn:Hck; [discriminate|]. intros Hmiss.
  rewrite filter_cons. destruct (decide (P (n, c))); [|now apply IH].
  simpl. rewrite Hck. now apply IH.
Qed.

Lemma storage_get_filter (name name' : string) (s : CacheStorage) :
  storage_get name' (filter (fun nc : string * gmap string Response => nc.1 = name) s) =
  if decide (name' = name) then storage_get name s else None.
Proof.
  induction s as [|[n c] s IH].
  - simpl. now destruct (decide (name' = name)).
  - rewrite filter_cons. cbn [fst].
    destruct (decide (n = name)) as [->|Hn]; cbn [storage_get]; rewrite ?IH;
      repeat case_decide; congruence.
Qed.

Lemma storage_wf_filter (P : string * gmap string Response -> Prop)
    `{forall x, Decision (P x)} (s : CacheStorage) :
  storage_wf s -> storage_wf (filter P s).
Proof.
  unfold storage_wf, storage_names. induction s as [|nc s IH]; [trivial|].
  rewrite fmap_cons. intros Hnd. apply NoDup_cons in Hnd as [Hnotin Hnd].
  rewrite filter_cons. destruct (decide (P nc)); [|now apply IH].
  rewrite fmap_cons. apply NoDup_cons. split; [|now apply IH].
  intros Hin. apply Hnotin.
  apply list_elem_of_fmap in Hin as (x & -> & Hx).
  apply list_elem_of_filter in Hx as [_ Hx].
  apply list_elem_of_fmap. eauto.
Qed.

Lemma cache_first_miss_offline (request : Request) (net : Network) (s : CacheStorage) :
  storage_match s (url request) = None ->
  net (url request) = None ->
  respondWith (cache_first request) net s =
    (RespondRejected, s, [CacheLookup (url request); NetFetch (url request)]).
Proof.
  intros Hmiss Hnet. unfold respondWith, cache_first, andThen, caches_match, fetch.
  now rewrite Hmiss, Hnet.
Qed.

(** The two shapes of the storage after a handled request. *)
Lemma on_fetch_storage (origin : string) (request : Request) (net : Network)
    (s : CacheStorage) :
  (on_fetch origin request net s).1.2 = s
  \/ (on_fetch origin request net s).1.2 = storage_open CACHE_NAME s.
Proof.
  unfold on_fetch.
  destruct (negb (String.eqb (method request) "GET")); [now left|].
  destruct (is_static (url request)); [|left; apply network_first_storage].
  apply cache_first_storage.
Qed.

Section ServiceWorkerFurther.

Variable origin : string.

(** X1. A URL is classified as static exactly when it is some prefix
    followed by a member of STATIC_ASSETS; in particular every URL that
    ends with a slash is. *)
Theorem is_static_iff_suffix (u : string) :
  (is_static u = true <-> exists p a, a ∈ STATIC_ASSETS /\ u = p +:+ a)
  /\ (forall p, is_static (p +:+ "/") = true).
Proof.
  assert (Hiff : is_static u = true <-> exists p a, a ∈ STATIC_ASSETS /\ u = p +:+ a).
  { unfold is_static. rewrite existsb_exists. split.
    - intros (a & Ha & Hends). apply endsWith_true_iff in Hends as (p & ->).
      exists p, a. split; [now apply list_elem_of_In | reflexivity].
    - intros (p & a & Ha & ->). exists a.
      split; [now apply list_elem_of_In | apply endsWith_append]. }
  split; [exact Hiff|].
  intros p. unfold is_static. apply existsb_exists. exists "/".
  split; [simpl; tauto | apply endsWith_append].
Qed.

(** X2. A GET request classified as static that is not cached, while the
    network is down, is answered with a rejection: the cache-first branch
    has no fallback, whatever the request's mode and whether or not the
    Offline Page is cached. The storage is unchanged. *)
Theorem static_miss_offline_is_rejected
    (net : Network) (s : CacheStorage) (request : Request) :
  method request = "GET" ->
  is_static (url request) = true ->
  storage_match s (url request) = None ->
  net (url request) = None ->
  on_fetch origin request net s =
    (RespondRejected, s, [CacheLookup (url request); NetFetch (url request)]).
Proof.
  intros Hget Hst Hmiss Hnet.
  rewrite (on_fetch_static origin request Hget Hst).
  now apply cache_first_miss_offline.
Qed.

(** X3. A static cache miss that the network answers stores nothing,
    whatever the status: every later GET request for the same URL is a
    miss again and goes to the network again, so it gets the network's
    answer of that moment and is rejected when the network is down. *)
Theorem static_miss_is_missed_again
    (net net' : Network) (s : CacheStorage) (request request' : Request)
    (r : Response) :
  method request = "GET" ->
  is_static (url request) = true ->
  storage_match s (url request) = None ->
  net (url request) = Some r ->
  method request' = "GET" ->
  url request' = url request ->
  let s' := (on_fetch origin request net s).1.2 in
  storage_match s' (url request) = None
  /\ (NetFetch (url request) ∈ (on_fetch origin request' net' s').2)
  /\ (net' (url request) = None ->
      (on_fetch origin request' net' s').1.1 = RespondRejected)
  /\ (forall r', net' (url request) = Some r' ->
        (on_fetch origin request' net' s').1.1 = Respond r').
Proof.
  intros Hget Hst Hmiss Hnet Hget' Hurl s'.
  assert (Hmiss' : storage_match s' (url request') = None).
  { subst s'. rewrite Hurl.
    destruct (on_fetch_storage origin request net s) as [-> | ->];
      [exact Hmiss | now rewrite storage_match_open]. }
  split; [now rewrite <- Hurl|].
  rewrite on_fetch_static; [|exact Hget'|now rewrite Hurl].
  rewrite <- Hurl.
  destruct (net' (url request')) as [r'|] eqn:Hnet'.
  - rewrite (cache_first_miss request' net' s' r' Hmiss' Hnet'). cbn [fst snd].
    split; [apply list_elem_of_In; simpl; tauto|].
    split; [discriminate|]. now intros ? [= <-].
  - rewrite (cache_first_miss_offline request' net' s' Hmiss' Hnet'). cbn [fst snd].
    split; [apply list_elem_of_In; simpl; tauto|].
    split; [reflexivity | discriminate].
Qed.

(** X4. The fetch listener never removes or replaces what caches.match
    already finds, and it changes what caches.match finds at no URL other
    than the request's own. *)
Theorem on_fetch_keeps_entries
    (net : Network) (s : CacheStorage) (request : Request) :
  let s' := (on_fetch origin request net s).1.2 in
  (forall k x, storage_match s k = Some x -> storage_match s' k = Some x)
  /\ (forall k, k ≠ url request -> storage_match s' k = storage_match s k).
Proof.
  intros s'. subst s'.
  destruct (on_fetch_storage origin request net s) as [-> | ->]; [split; auto|].
  split.
  - intros k x Hk. now rewrite storage_match_open.
  - intros k _. apply storage_match_open.
Qed.

Lemma Serving_asset (s : CacheStorage) (a : string) :
  Serving origin s -> a ∈ STATIC_ASSETS ->
  is_Some (storage_match s (absolute origin a)).
Proof.
  intros Hs Ha. induction Hs as [net net' s s1 t Hinst | net request s Hs IH].
  - destruct (activated_match origin net net' s s1 t a Hinst Ha) as (r & _ & ->).
    eauto.
  - destruct IH as (x & Hx).
    destruct (on_fetch_storage origin request net s) as [-> | ->]; [eauto|].
    rewrite storage_match_open. eauto.
Qed.

(** X5. While this worker serves, every static asset stays cached: a GET
    request for a member of STATIC_ASSETS is answered from the cache
    without a fetch at any time, not only right after activation. *)
Theorem serving_static_assets_never_fetch
    (net : Network) (s : CacheStorage) (a mode : string) :
  Serving origin s ->
  a ∈ STATIC_ASSETS ->
  exists r,
    storage_match s (absolute origin a) = Some r
    /\ on_fetch origin (mkRequest "GET" (absolute origin a) mode) net s =
         (Respond r, s, [CacheLookup (absolute origin a)]).
Proof.
  intros Hs Ha. destruct (Serving_asset s a Hs Ha) as (r & Hr).
  exists r. split; [exact Hr|].
  rewrite on_fetch_static; [|reflexivity|now apply is_static_absolute].
  now apply cache_first_hit.
Qed.

(** X6. A successful install leaves every cache of another generation as
    it was, and in its own cache it leaves every entry stored under a URL
    that is not one of the static assets as it was. *)
Theorem install_keeps_other_entries
    (net : Network) (s s1 : CacheStorage) (t : list Effect) :
  on_install origin net s = (Fulfilled tt, s1, t) ->
  (forall name, name ≠ CACHE_NAME -> storage_get name s1 = storage_get name s)
  /\ (forall v, v ∉ absolute origin <$> STATIC_ASSETS ->
        (storage_get CACHE_NAME s1 ≫= (.!! v)) =
        (storage_get CACHE_NAME s ≫= (.!! v))).
Proof.
  rewrite on_install_settles.
  destruct (mapM (addAll_fetched net) (absolute origin <$> STATIC_ASSETS))
    as [entries|] eqn:Hall; [|discriminate].
  intros Heq. injection Heq as <- <-. split.
  - intros name Hne. rewrite storage_get_put_all_ne by exact Hne.
    now apply storage_get_open_ne.
  - intros v Hv. rewrite storage_get_put_all, storage_get_open. simpl.
    rewrite (addAll_entries_keep net _ entries _ v Hall Hv).
    destruct (storage_get CACHE_NAME s); [reflexivity | apply lookup_empty].
Qed.

End ServiceWorkerFurther.

Lemma storage_put_cons (name u : string) (r : Response)
    (nc : string * gmap string Response) (s : CacheStorage) :
  storage_put name u r (nc :: s) =
  (if decide (nc.1 = name) then (nc.1, <[u := r]> nc.2) else nc)
    :: storage_put name u r s.
Proof. reflexivity. Qed.

Lemma storage_put_all_nil (name : string) (entries : list (string * Response)) :
  storage_put_all name entries [] = [].
Proof. unfold storage_put_all. induction entries as [|e entries IH]; [reflexivity | exact IH]. Qed.

Lemma storage_put_all_cons (name : string) (entries : list (string * Response))
    (nc : string * gmap string Response) (s : CacheStorage) :
  storage_put_all name entries (nc :: s) =
  (if decide (nc.1 = name)
   then (nc.1, fold_left (fun c ur => <[ur.1 := ur.2]> c) entries nc.2)
   else nc) :: storage_put_all name entries s.
Proof.
  revert nc s.
  induction entries as [|e entries IH]; intros [n c] s.
  - unfold storage_put_all. cbn [fold_left fst snd].
    now destruct (decide (n = name)).
  - change (storage_put_all name (e :: entries) ((n, c) :: s))
      with (storage_put_all name entries (storage_put name e.1 e.2 ((n, c) :: s))).
    change (storage_put_all name (e :: entries) s)
      with (storage_put_all name entries (storage_put name e.1 e.2 s)).
    rewrite storage_put_cons, IH. cbn [fst snd fold_left].
    destruct (decide (n = name)); cbn [fst snd].
    + now rewrite decide_True.
    + now rewrite decide_False.
Qed.

Lemma addAll_entries_idem (net : Network) (urls : list string)
    (entries : list (string * Response)) (c : gmap string Response) :
  mapM (addAll_fetched net) urls = Some entries ->
  fold_left (fun c ur => <[ur.1 := ur.2]> c) entries
    (fold_left (fun c ur => <[ur.1 := ur.2]> c) entries c) =
  fold_left (fun c ur => <[ur.1 := ur.2]> c) entries c.
Proof.
  intros Hall. apply map_eq. intros u.
  destruct (decide (u ∈ urls)) as [Hu|Hu].
  - destruct (addAll_entries_lookup net urls entries c u Hall Hu) as [-> _].
    now destruct (addAll_entries_lookup net urls entries
                    (fold_left (fun c ur => <[ur.1 := ur.2]> c) entries c)
                    u Hall Hu) as [-> _].
  - now rewrite (addAll_entries_keep net urls entries _ u Hall Hu).
Qed.

Lemma storage_put_all_idem (net : Network) (urls : list string)
    (entries : list (string * Response)) (name : string) (s : CacheStorage) :
  mapM (addAll_fetched net) urls = Some entries ->
  storage_put_all name entries (storage_put_all name entries s) =
  storage_put_all name entries s.
Proof.
  intros Hall. induction s as [|[n c] s IH].
  - now rewrite !storage_put_all_nil.
  - rewrite (storage_put_all_cons name entries (n, c) s). cbn [fst snd].
    destruct (decide (n = name)) as [Hn|Hn]; rewrite storage_put_all_cons;
      cbn [fst snd]; rewrite IH.
    + rewrite decide_True by exact Hn.
      now rewrite (addAll_entries_idem net urls entries c Hall).
    + now rewrite decide_False by exact Hn.
Qed.

Section Generations.

Variable origin : string.

(** X7. Install is idempotent: running the install listener again on the
    storage a successful install produced, with the network answering as
    before, succeeds with the same effects and leaves that storage
    unchanged. *)
Theorem install_idempotent
    (net : Network) (s s1 : CacheStorage) (t : list Effect) :
  on_install origin net s = (Fulfilled tt, s1, t) ->
  on_install origin net s1 = (Fulfilled tt, s1, t).
Proof.
  rewrite !on_install_settles.
  destruct (mapM (addAll_fetched net) (absolute origin <$> STATIC_ASSETS))
    as [entries|] eqn:Hall; [|discriminate].
  intros Heq. injection Heq as <- <-.
  assert (Hopen : storage_open CACHE_NAME
                    (storage_put_all CACHE_NAME entries (storage_open CACHE_NAME s)) =
                  storage_put_all CACHE_NAME entries (storage_open CACHE_NAME s)).
  { unfold storage_open at 1.
    now rewrite storage_get_put_all, storage_get_open. }
  rewrite Hopen.
  now rewrite (storage_put_all_idem net _ entries CACHE_NAME _ Hall).
Qed.

(** X8. Activation keeps the cache named CACHE_NAME with its contents and
    nothing else: afterwards no other name opens a cache; activating again
    changes nothing; and on a storage without a cache of that name it
    leaves no cache at all. *)
Theorem activate_keeps_only_current (net net' : Network) (s : CacheStorage) :
  let s' := (on_activate net s).1.2 in
  (forall name, storage_get name s' =
                if decide (name = CACHE_NAME) then storage_get CACHE_NAME s else None)
  /\ (on_activate net' s').1.2 = s'
  /\ (storage_get CACHE_NAME s = None -> s' = []).
Proof.
  intros s'. subst s'. rewrite !on_activate_storage. cbn [fst snd].
  split; [intros name; apply storage_get_filter|]. split.
  - now apply list_filter_filter_l.
  - intros Hnone. now apply filter_absent, storage_get_None.
Qed.

(** X9. The three listeners keep cache names unique: from a storage in
    which no two caches share a name, install (fulfilled or rejected),
    activate and every handled request lead to such a storage. *)
Theorem listeners_keep_names_unique
    (net : Network) (s : CacheStorage) (request : Request) :
  storage_wf s ->
  storage_wf (on_install origin net s).1.2
  /\ storage_wf (on_activate net s).1.2
  /\ storage_wf (on_fetch origin request net s).1.2.
Proof.
  intros Hwf. split; [|split].
  - rewrite on_install_settles.
    destruct (mapM (addAll_fetched net) (absolute origin <$> STATIC_ASSETS));
      cbn [fst snd]; [|now apply storage_wf_open].
    unfold storage_wf. rewrite storage_names_put_all. now apply storage_wf_open.
  - rewrite on_activate_storage. cbn [fst snd]. now apply storage_wf_filter.
  - destruct (on_fetch_storage origin request net s) as [-> | ->];
      [exact Hwf | now apply storage_wf_open].
Qed.

End Generations.

(** * The previous worker *)

Section PreviousWorker.

Variable origin : string.

Lemma v1_on_install_settles (net : Network) (s : CacheStorage) :
  SwV1.on_install origin net s =
  match mapM (addAll_fetched net) (absolute origin <$> SwV1.CORE_ASSETS) with
  | Some entries =>
      (Fulfilled tt,
       storage_put_all SwV1.CACHE_NAME entries (storage_open SwV1.CACHE_NAME s),
       ((NetFetch <$> (absolute origin <$> SwV1.CORE_ASSETS))
          ++ (CachePut SwV1.CACHE_NAME <$> (absolute origin <$> SwV1.CORE_ASSETS)))
         ++ [SkipWaiting])
  | None =>
      (Rejected, storage_open SwV1.CACHE_NAME s,
       NetFetch <$> (absolute origin <$> SwV1.CORE_ASSETS))
  end.
Proof.
  unfold SwV1.on_install, andThen, caches_open, cache_addAll, perform.
  now destruct (mapM (addAll_fetched net) (absolute origin <$> SwV1.CORE_ASSETS)).
Qed.

Lemma v1_on_activate_storage (net : Network) (s : CacheStorage) :
  (SwV1.on_activate net s).1.2 =
  filter (fun nc : string * gmap string Response => nc.1 = SwV1.CACHE_NAME) s.
Proof.
  unfold SwV1.on_activate, andThen, caches_keys, perform.
  destruct (promise_all_delete net
              (filter (fun name => name ≠ SwV1.CACHE_NAME) (storage_names s)) s)
    as (bs & ->).
  cbn [fst snd]. now apply filter_current.
Qed.

(** X10. The previous worker's fetch listener never writes: whatever the
    request and the network, the storage is unchanged and no cache put is
    among its effects; a core asset missing from the cache is fetched
    again on every request. *)
Theorem v1_fetch_never_writes
    (net : Network) (s : CacheStorage) (request : Request) :
  (SwV1.on_fetch origin request net s).1.2 = s
  /\ (forall name u, CachePut name u ∉ (SwV1.on_fetch origin request net s).2)
  /\ (method request = "GET" ->
      startsWith (url request) "chrome-extension://" = false ->
      SwV1.is_core (url request) = true ->
      storage_match s (url request) = None ->
      NetFetch (url request) ∈ (SwV1.on_fetch origin request net s).2).
Proof.
  unfold SwV1.on_fetch, respondWith, SwV1.cache_first, SwV1.network_first,
    catch, andThen, fetch, caches_match, resolve.
  split; [|split].
  - destruct (negb (String.eqb (method request) "GET")
              || startsWith (url request) "chrome-extension://"); [reflexivity|].
    destruct (SwV1.is_core (url request)).
    + destruct (storage_match s (url request)); [reflexivity|].
      now destruct (net (url request)).
    + destruct (net (url request)); [reflexivity|].
      destruct (String.eqb (mode request) "navigate"); [|reflexivity].
      now destruct (storage_match s (absolute origin SwV1.OFFLINE_URL)).
  - intros name u.
    destruct (negb (String.eqb (method request) "GET")
              || startsWith (url request) "chrome-extension://");
      [intros Hin; not_listed Hin|].
    destruct (SwV1.is_core (url request)).
    + destruct (storage_match s (url request)); [intros Hin; not_listed Hin|].
      destruct (net (url request)); intros Hin; not_listed Hin.
    + destruct (net (url request)); [intros Hin; not_listed Hin|].
      destruct (String.eqb (mode request) "navigate"); [|intros Hin; not_listed Hin].
      destruct (storage_match s (absolute origin SwV1.OFFLINE_URL));
        intros Hin; not_listed Hin.
  - intros Hget Hext Hcore Hmiss. rewrite Hget, Hext, Hcore.
    cbn [String.eqb Ascii.eqb Bool.eqb negb orb]. cbv beta. rewrite Hmiss.
    destruct (net (url request)); cbn [snd app]; apply list_elem_of_In; simpl; tauto.
Qed.

(** X11. The previous worker leaves a request to the browser exactly when
    its method is not GET or its URL starts with [chrome-extension://];
    every other request is answered through respondWith. *)
Theorem v1_pass_through_iff
    (net : Network) (s : CacheStorage) (request : Request) :
  (SwV1.on_fetch origin request net s).1.1 = PassThrough
  <-> method request ≠ "GET"
      \/ startsWith (url request) "chrome-extension://" = true.
Proof.
  unfold SwV1.on_fetch.
  destruct (String.eqb_spec (method request) "GET") as [Hget|Hget];
    destruct (startsWith (url request) "chrome-extension://"); cbn [negb orb fst];
    try (split; [intros _; auto | reflexivity]).
  split; [|intros [Hne|Hext]; [contradiction | discriminate]].
  unfold respondWith.
  destruct (SwV1.is_core (url request)).
  - destruct (SwV1.cache_first request net s) as [[[[r|]|] s1] t]; discriminate.
  - destruct (SwV1.network_first origin request net s) as [[[[r|]|] s1] t]; discriminate.
Qed.

(** X12. The previous worker never caches its own Offline Page:
    [/offline.html] is not among CORE_ASSETS. After its successful install
    and activation on a storage where caches.match found no Offline Page,
    a failed navigation outside the core assets is answered with
    undefined, which the page sees as a failed request. *)
Theorem v1_offline_navigation_has_no_page
    (net net' net'' : Network) (s s1 : CacheStorage) (t : list Effect)
    (request : Request) :
  SwV1.on_install origin net s = (Fulfilled tt, s1, t) ->
  storage_match s (absolute origin SwV1.OFFLINE_URL) = None ->
  method request = "GET" ->
  startsWith (url request) "chrome-extension://" = false ->
  SwV1.is_core (url request) = false ->
  mode request = "navigate" ->
  net'' (url request) = None ->
  let current := (SwV1.on_activate net' s1).1.2 in
  SwV1.on_fetch origin request net'' current =
    (RespondUndefined, current,
     [NetFetch (url request); CacheLookup (absolute origin SwV1.OFFLINE_URL)]).
Proof.
  intros Hinst Hnone Hget Hext Hcore Hnav Hnet current.
  assert (Hmiss : storage_match current (absolute origin SwV1.OFFLINE_URL) = None).
  { subst current. rewrite v1_on_activate_storage.
    apply storage_match_filter_None.
    rewrite v1_on_install_settles in Hinst.
    destruct (mapM (addAll_fetched net) (absolute origin <$> SwV1.CORE_ASSETS))
      as [entries|] eqn:Hall; [|discriminate].
    injection Hinst as <- _.
    rewrite storage_match_put_all_ne; [now rewrite storage_match_open|].
    rewrite (addAll_entries_urls net _ entries Hall).
    intros Hin. apply list_elem_of_fmap in Hin as (a & Heq & Ha).
    apply append_inj_l in Heq. subst a. not_listed Ha. }
  unfold SwV1.on_fetch, respondWith, SwV1.network_first, catch, andThen, fetch,
    caches_match.
  rewrite Hget, Hext, Hcore, Hnav.
  cbn [String.eqb Ascii.eqb Bool.eqb negb orb]. cbv beta.
  rewrite Hnet. fold current. now rewrite Hmiss.
Qed.

End PreviousWorker.

(** * The application shell *)

Lemma slice_last {A} (n : nat) (l : list A) :
  App.slice (- Z.of_nat (S n)) l = App.last_n (S n) l.
Proof.
  unfold App.slice, App.last_n.
  destruct (Z.ltb_spec (- Z.of_nat (S n)) 0) as [_|Hge]; [|lia].
  f_equal. lia.
Qed.

Lemma last_n_length {A} (n : nat) (l : list A) :
  length (App.last_n n l) = Nat.min n (length l).
Proof. unfold App.last_n. rewrite length_drop. lia. Qed.

Lemma last_n_snoc {A} (n : nat) (l : list A) (x : A) :
  App.last_n n l ++ [x] = App.last_n (S n) (l ++ [x]).
Proof.
  unfold App.last_n. rewrite length_app. simpl.
  replace (length l + 1 - S n)%nat with (length l - n)%nat by lia.
  rewrite drop_app_le by lia. reflexivity.
Qed.

Lemma last_n_app_last_n {A} (n : nat) (l x : list A) :
  App.last_n n (App.last_n n l ++ x) = App.last_n n (l ++ x).
Proof.
  unfold App.last_n. rewrite !length_app, length_drop.
  destruct (Nat.le_gt_cases (length l) n) as [Hle|Hgt].
  - replace (length l - n)%nat with 0%nat by lia. simpl.
    now rewrite Nat.sub_0_r.
  - replace (length l - (length l - n) + length x - n)%nat with (length x) by lia.
    replace (length l + length x - n)%nat with ((length l - n) + length x)%nat by lia.
    rewrite <- drop_drop. f_equal. rewrite drop_app_le by lia. reflexivity.
Qed.

Lemma addLog_logs (now msg : string) (st : App.State) :
  App.logs (App.addLog now msg st) =
  App.last_n 5 (App.logs st ++ [App.log_line now msg]).
Proof.
  unfold App.addLog, App.setLogs. cbn [App.logs].
  change (-4)%Z with (- Z.of_nat 4)%Z. rewrite slice_last. apply last_n_snoc.
Qed.

Lemma prefix_append (a b : string) : String.prefix a (a +:+ b) = true.
Proof.
  apply prefix_correct. induction a as [|ch a IH].
  - now destruct b.
  - rewrite append_cons. simpl. now rewrite IH.
Qed.

Lemma nonempty_true (v : string) : App.nonempty v = true <-> v ≠ "".
Proof. destruct v; simpl; split; congruence. Qed.

(** X13. addLog appends the new line at the end and keeps at most the
    four newest of the earlier lines, so the console never holds more
    than five lines; nothing else of the state changes. *)
Theorem addLog_bounded (now msg : string) (st : App.State) :
  length (App.logs (App.addLog now msg st)) = S (Nat.min 4 (length (App.logs st)))
  /\ (length (App.logs (App.addLog now msg st)) <= 5)%nat
  /\ last (App.logs (App.addLog now msg st)) = Some (App.log_line now msg)
  /\ App.logs (App.addLog now msg st) =
       App.last_n 4 (App.logs st) ++ [App.log_line now msg]
  /\ App.setLogs (fun _ => App.logs st) (App.addLog now msg st) = st.
Proof.
  assert (Hlogs : App.logs (App.addLog now msg st) =
                  App.last_n 4 (App.logs st) ++ [App.log_line now msg]).
  { rewrite addLog_logs. symmetry. apply last_n_snoc. }
  rewrite Hlogs, length_app, last_n_length, last_snoc. cbn [length].
  split; [lia|]. split; [lia|]. split; [reflexivity|]. split; [reflexivity|].
  now destruct st.
Qed.

(** X14. From a console of at most five lines, after any sequence of
    addLog calls the console shows exactly the last five lines of the
    whole history (the earlier console followed by the new lines, in
    order). *)
Theorem console_shows_last_five
    (events : list (string * string)) (st : App.State) :
  (length (App.logs st) <= 5)%nat ->
  App.logs (foldl (fun st e => App.addLog e.1 e.2 st) st events) =
  App.last_n 5
    (App.logs st ++ ((fun e : string * string => App.log_line e.1 e.2) <$> events)).
Proof.
  revert st. induction events as [|e events IH]; intros st Hlen.
  - simpl. rewrite app_nil_r. unfold App.last_n.
    now replace (length (App.logs st) - 5)%nat with 0%nat by lia.
  - cbn [foldl fmap list_fmap]. rewrite IH.
    + rewrite addLog_logs, last_n_app_last_n. now rewrite <- app_assoc.
    + rewrite addLog_logs, last_n_length. lia.
Qed.

Lemma addLog_last (now msg : string) (st : App.State) :
  last (App.logs (App.addLog now msg st)) = Some (App.log_line now msg).
Proof.
  rewrite addLog_logs, <- last_n_snoc. apply last_snoc.
Qed.

Lemma script_of_nonempty (text : option string) :
  App.nonempty (App.script_of text) = true.
Proof.
  unfold App.script_of. destruct text as [v|]; [|reflexivity].
  now destruct (App.nonempty v) eqn:Hv.
Qed.

(** X15. generateKivyScript raises isGenerating before it sends the
    prompt, leaving script, tab and request alone, and however the
    completion settles, on whatever state it then finds, it lowers
    isGenerating again. When the completion throws, the script, the active
    tab and the evolution request stay as they were, and the console's
    last line reports which of the two operations failed. *)
Theorem generate_failure_keeps_script
    (a : App.Argument) (now : string) (c : App.Completion) (st : App.State) :
  (let st0 := (App.generate_begin a now st).1 in
   App.isGenerating st0 = true
   /\ App.generatedScript st0 = App.generatedScript st
   /\ App.activeTab st0 = App.activeTab st
   /\ App.evolutionRequest st0 = App.evolutionRequest st)
  /\ App.isGenerating (App.generate_settle a now c st) = false
  /\ (let st' := App.generate_settle a now App.Thrown st in
      App.generatedScript st' = App.generatedScript st
      /\ App.activeTab st' = App.activeTab st
      /\ App.evolutionRequest st' = App.evolutionRequest st
      /\ last (App.logs st') =
           Some (App.log_line now
                   (if App.isEvolution a then "Error: Evolution failed."
                    else "Error: Synthesis failed."))).
Proof.
  split; [cbv zeta; repeat split|]. split; [reflexivity|].
  cbv zeta. repeat split.
  unfold App.generate_settle, App.setIsGenerating. cbn [App.logs].
  rewrite addLog_last. now destruct (App.isEvolution a).
Qed.

(** X16. When the completion answers, the new script is its text, or the
    line [# Error generating script] when the text is missing or empty, so
    the stored script is never empty afterwards; the script tab becomes
    active; the evolution request is cleared exactly when the call was an
    evolution; and the console's last line reports completion. *)
Theorem generate_success_stores_script
    (a : App.Argument) (now : string) (text : option string) (st : App.State) :
  let st' := App.generate_settle a now (App.Answered text) st in
  App.generatedScript st' ≠ ""
  /\ (forall v, text = Some v -> v ≠ "" -> App.generatedScript st' = v)
  /\ (text = None \/ text = Some "" ->
      App.generatedScript st' = "# Error generating script")
  /\ App.activeTab st' = App.script
  /\ App.evolutionRequest st' =
       (if App.isEvolution a then "" else App.evolutionRequest st)
  /\ App.isGenerating st' = false
  /\ last (App.logs st') =
       Some (App.log_line now
               (if App.isEvolution a then "Evolution complete."
                else "Script synthesis complete.")).
Proof.
  intros st'.
  assert (Hscript : App.generatedScript st' = App.script_of text).
  { subst st'. unfold App.generate_settle. now destruct (App.isEvolution a). }
  split; [rewrite Hscript; apply nonempty_true, script_of_nonempty|].
  split; [intros v -> Hv; rewrite Hscript; unfold App.script_of;
          apply nonempty_true in Hv; now rewrite Hv|].
  split; [intros [-> | ->]; now rewrite Hscript|].
  subst st'. unfold App.generate_settle.
  destruct (App.isEvolution a); cbn -[App.addLog];
    repeat split; apply addLog_last.
Qed.

(** X17. Every prompt starts with the architect prompt and the library
    constraint, each followed by a blank line; whatever the user typed
    comes after them. The evolution prompt is sent only for an evolution
    call made when a script exists, and it ends with the evolution
    request; in every other case, in particular for an evolution call
    made before any script exists, the synthesis task is sent. *)
Theorem prompt_shape (a : App.Argument) (now : string) (st : App.State) :
  let header := App.ARCHITECT_SHELL_PROMPT +:+ App.nl +:+ App.nl +:+
                App.PHYSICS_LIBRARY_CONSTRAINT +:+ App.nl +:+ App.nl in
  let prompt := (App.generate_begin a now st).2 in
  startsWith prompt header = true
  /\ (App.isEvolution a = false \/ App.generatedScript st = "" ->
      prompt = header +:+ App.SYNTHESIS_TASK)
  /\ (App.isEvolution a = true -> App.generatedScript st ≠ "" ->
      endsWith prompt ("Evolution Request: " +:+ App.evolutionRequest st) = true
      /\ prompt ≠ header +:+ App.SYNTHESIS_TASK).
Proof.
  intros header prompt. subst prompt. unfold App.generate_begin, App.build_prompt.
  cbn [snd]. fold header. split; [|split].
  - unfold startsWith.
    destruct (App.isEvolution a && App.nonempty (App.generatedScript st));
      apply prefix_append.
  - intros [-> | ->]; [reflexivity|]. simpl. now rewrite andb_false_r.
  - intros -> Hscript. apply nonempty_true in Hscript. rewrite Hscript.
    cbn [andb]. split.
    + do 9 rewrite <- append_assoc.
      rewrite (append_assoc _ "Evolution Request: "). apply endsWith_append.
    + intros Heq. apply append_inj_l in Heq. discriminate Heq.
Qed.

(** X18. Wired directly as the header button's onClick,
    generateKivyScript receives the click event, which is truthy: once a
    script exists, a click on Synthesize Script announces an evolution,
    sends the evolution prompt rather than the synthesis task, and on
    success clears the evolution request, exactly like the Evolve
    button's call with [true]. *)
Theorem header_click_runs_evolution
    (now now' : string) (c : App.Completion) (st : App.State) :
  App.generatedScript st ≠ "" ->
  (App.generate_begin App.ClickEvent now st).2 ≠
    (App.generate_begin App.Omitted now st).2
  /\ last (App.logs (App.generate_begin App.ClickEvent now st).1) =
       Some (App.log_line now "Evolving existing script...")
  /\ App.generateKivyScript App.ClickEvent now now' c st =
     App.generateKivyScript (App.Flag true) now now' c st
  /\ (forall text,
        App.evolutionRequest
          (App.generateKivyScript App.ClickEvent now now' (App.Answered text) st) = "").
Proof.
  intros Hscript. split; [|split; [|split]].
  - unfold App.generate_begin, App.build_prompt. cbn [snd App.isEvolution andb].
    apply nonempty_true in Hscript. rewrite Hscript.
    intros Heq. apply append_inj_l in Heq. discriminate Heq.
  - unfold App.generate_begin. cbn [fst App.isEvolution]. apply addLog_last.
  - reflexivity.
  - reflexivity.
Qed.

(** * Further properties of the native formulas *)

Section NativeFormulasFurther.

Import PhysicsEngine.

Lemma binary_round_aux_opp (sx : bool) (mx ex : Z) (lx : location) :
  binary_round_aux prec emax (negb sx) mx ex lx =
  SFopp (binary_round_aux prec emax sx mx ex lx).
Proof.
  unfold binary_round_aux.
  destruct (shr_fexp prec emax mx ex lx) as [mrs' e'].
  destruct (shr_fexp prec emax _ e' loc_Exact) as [mrs'' e''].
  destruct (shr_m mrs''); [reflexivity| |reflexivity].
  now destruct (e'' <=? emax - prec)%Z.
Qed.

Lemma SFdiv_opp_l (x y : float) :
  SFdiv prec emax (SFopp x) y = SFopp (SFdiv prec emax x y).
Proof.
  destruct x as [sx|sx| |sx mx ex], y as [sy|sy| |sy my ey]; try reflexivity;
    cbn [SFdiv SFopp]; try (now destruct sx, sy).
  destruct (SFdiv_core_binary prec emax (Z.pos mx) ex (Z.pos my) ey) as [[mz ez] lz].
  rewrite <- binary_round_aux_opp. now destruct sx, sy.
Qed.

Lemma SFmul_opp_l (x y : float) :
  SFmul prec emax (SFopp x) y = SFopp (SFmul prec emax x y).
Proof.
  destruct x as [sx|sx| |sx mx ex], y as [sy|sy| |sy my ey]; try reflexivity;
    cbn [SFmul SFopp]; try (now destruct sx, sy).
  rewrite <- binary_round_aux_opp. now destruct sx, sy.
Qed.

Lemma SFmul_comm (x y : float) : SFmul prec emax x y = SFmul prec emax y x.
Proof.
  destruct x as [sx|sx| |sx mx ex], y as [sy|sy| |sy my ey]; try reflexivity;
    cbn [SFmul]; try (now destruct sx, sy).
  now rewrite Pos.mul_comm, Z.add_comm, xorb_comm.
Qed.

(** X19. A NaN is not caught by the guards, since it does not compare
    [<= 0]: calculate_stress with a NaN area returns NaN, and
    calculate_displacement returns NaN when its area or its modulus is NaN
    and the other one is not [<= 0]. *)
Theorem nan_passes_the_guards (force length x : float) :
  calculate_stress force S754_nan = S754_nan
  /\ (fle x zero = false ->
      calculate_displacement force length S754_nan x = S754_nan
      /\ calculate_displacement force length x S754_nan = S754_nan).
Proof.
  split.
  - unfold calculate_stress, calculate_stress_run, fdiv. cbn [fle SFleb SFcompare fst].
    now destruct force.
  - intros Hx. unfold calculate_displacement, calculate_displacement_run, fdiv, fmul.
    rewrite Hx. cbn [fle SFleb SFcompare orb fst]. split.
    + cbn [SFmul]. now destruct (SFmul prec emax force length).
    + replace (SFmul prec emax x S754_nan) with S754_nan by now destruct x.
      now destruct (SFmul prec emax force length).
Qed.

Lemma same_result_eq (x y : float) : x = y -> Further.same_result x y.
Proof. intros ->. split; [reflexivity | trivial]. Qed.

(** X20. Past the guards both formulas are odd in the force: for an area
    (and a modulus) that is not [<= 0], the result for the negated force
    is the negated result: a NaN where that is a NaN, and otherwise the
    same value with the opposite sign, bit for bit. *)
Theorem formulas_odd_in_force (force length area modulus : float) :
  fle area zero = false ->
  Further.same_result (calculate_stress (SFopp force) area)
                      (SFopp (calculate_stress force area))
  /\ (fle modulus zero = false ->
      Further.same_result
        (calculate_displacement (SFopp force) length area modulus)
        (SFopp (calculate_displacement force length area modulus))).
Proof.
  intros Ha. unfold calculate_stress, calculate_stress_run,
    calculate_displacement, calculate_displacement_run, fdiv, fmul.
  rewrite Ha. cbn [orb fst].
  split; [apply same_result_eq, SFdiv_opp_l|].
  intros ->. cbn [fst]. apply same_result_eq.
  now rewrite SFmul_opp_l, SFdiv_opp_l.
Qed.

(** X21. calculate_displacement does not depend on the order of force
    and length, nor on the order of area and modulus: exchanging either
    pair gives a NaN where the result was a NaN, and otherwise the same
    value bit for bit. *)
Theorem displacement_symmetric (force length area modulus : float) :
  Further.same_result (calculate_displacement force length area modulus)
                      (calculate_displacement length force area modulus)
  /\ Further.same_result (calculate_displacement force length area modulus)
                         (calculate_displacement force length modulus area).
Proof.
  unfold calculate_displacement, calculate_displacement_run, fdiv, fmul.
  split; apply same_result_eq.
  - now rewrite (SFmul_comm force).
  - rewrite (orb_comm (fle area zero)), (SFmul_comm area). reflexivity.
Qed.

End NativeFormulasFurther.

(** * The further properties at the concrete deployment *)

Lemma example_v1_install :
  SwV1.on_install Example.origin Example.network_up [] =
    (Fulfilled tt, Further.v1_installed, Further.v1_install_trace).
Proof.
  assert (Hsettled : forall x : Settled unit * CacheStorage * list Effect,
            x.1.1 = Fulfilled tt -> x = (Fulfilled tt, x.1.2, x.2)).
  { intros [[r s] t]. simpl. now intros ->. }
  apply Hsettled. vm_compute. reflexivity.
Defined.

Lemma example_previous_wf : storage_wf Example.previous.
Proof. unfold storage_wf. simpl. apply NoDup_singleton. Defined.

(** X2 at the example: a navigation to the directory [/docs/], offline. *)
Lemma static_miss_offline_is_rejected_witness :
  on_fetch Example.origin (Example.get "/docs/" "navigate")
    Example.network_down Example.current =
    (RespondRejected, Example.current,
     [CacheLookup (url (Example.get "/docs/" "navigate"));
      NetFetch (url (Example.get "/docs/" "navigate"))]).
Proof.
  apply (static_miss_offline_is_rejected Example.origin Example.network_down
           Example.current (Example.get "/docs/" "navigate")).
  - reflexivity.
  - vm_compute. reflexivity.
  - vm_compute. reflexivity.
  - reflexivity.
Defined.

(** X3 at the example: [/docs/] fetched once with status 200, then
    requested offline. *)
Lemma static_miss_is_missed_again_witness :
  storage_match Further.handled_once (url (Example.get "/docs/" "cors")) = None
  /\ (NetFetch (url (Example.get "/docs/" "cors"))
        ∈ (on_fetch Example.origin (Example.get "/docs/" "navigate")
             Example.network_down Further.handled_once).2)
  /\ (Example.network_down (url (Example.get "/docs/" "cors")) = None ->
      (on_fetch Example.origin (Example.get "/docs/" "navigate")
         Example.network_down Further.handled_once).1.1 = RespondRejected)
  /\ (forall r', Example.network_down (url (Example.get "/docs/" "cors")) = Some r' ->
        (on_fetch Example.origin (Example.get "/docs/" "navigate")
           Example.network_down Further.handled_once).1.1 = Respond r').
Proof.
  apply (static_miss_is_missed_again Example.origin
           Example.network_up Example.network_down
           Example.current (Example.get "/docs/" "cors")
           (Example.get "/docs/" "navigate")
           (mkResponse 200 "fresh https://phyarch.app/docs/")).
  - reflexivity.
  - vm_compute. reflexivity.
  - vm_compute. reflexivity.
  - reflexivity.
  - reflexivity.
  - reflexivity.
Defined.

(** X5 at the example: the Offline Page itself, after another request was
    handled, with the network down. *)
Lemma serving_static_assets_never_fetch_witness :
  exists r,
    storage_match Further.handled_once (absolute Example.origin "/offline.html") = Some r
    /\ on_fetch Example.origin
         (mkRequest "GET" (absolute Example.origin "/offline.html") "navigate")
         Example.network_down Further.handled_once =
         (Respond r, Further.handled_once,
          [CacheLookup (absolute Example.origin "/offline.html")]).
Proof.
  apply (serving_static_assets_never_fetch Example.origin Example.network_down
           Further.handled_once "/offline.html" "navigate").
  - exact (Serving_handled Example.origin Example.network_up
             (Example.get "/docs/" "cors") Example.current example_serving).
  - listed.
Defined.

(** X6 at the example: the previous generation's cache survives the
    install. *)
Lemma install_keeps_other_entries_witness :
  (forall name, name ≠ CACHE_NAME ->
     storage_get name Example.installed = storage_get name Example.previous)
  /\ (forall v, v ∉ absolute Example.origin <$> STATIC_ASSETS ->
        (storage_get CACHE_NAME Example.installed ≫= (.!! v)) =
        (storage_get CACHE_NAME Example.previous ≫= (.!! v))).
Proof.
  exact (install_keeps_other_entries Example.origin Example.network_up
           Example.previous Example.installed Example.install_trace example_install).
Defined.

(** X7 at the example. *)
Lemma install_idempotent_witness :
  on_install Example.origin Example.network_up Example.installed =
    (Fulfilled tt, Example.installed, Example.install_trace).
Proof.
  exact (install_idempotent Example.origin Example.network_up
           Example.previous Example.installed Example.install_trace example_install).
Defined.

(** X8 at the example: activating on the previous worker's storage, where
    no cache of this generation exists, leaves nothing. *)
Lemma activate_keeps_only_current_witness :
  (on_activate Example.network_up Example.previous).1.2 = [].
Proof.
  destruct (activate_keeps_only_current Example.network_up Example.network_up
              Example.previous) as (_ & _ & Hempty).
  apply Hempty. vm_compute. reflexivity.
Defined.

(** X9 at the example. *)
Lemma listeners_keep_names_unique_witness :
  storage_wf (on_install Example.origin Example.network_up Example.previous).1.2
  /\ storage_wf (on_activate Example.network_up Example.previous).1.2
  /\ storage_wf (on_fetch Example.origin (Example.get "/index.html" "cors")
                   Example.network_up Example.previous).1.2.
Proof.
  exact (listeners_keep_names_unique Example.origin Example.network_up
           Example.previous (Example.get "/index.html" "cors") example_previous_wf).
Defined.

(** X10 at the example: the previous worker fetches an uncached core
    asset. *)
Lemma v1_fetch_never_writes_witness :
  NetFetch (url (Example.get "/index.html" "cors"))
    ∈ (SwV1.on_fetch Example.origin (Example.get "/index.html" "cors")
         Example.network_up []).2.
Proof.
  destruct (v1_fetch_never_writes Example.origin Example.network_up []
              (Example.get "/index.html" "cors")) as (_ & _ & Hfetch).
  apply Hfetch.
  - reflexivity.
  - vm_compute. reflexivity.
  - vm_compute. reflexivity.
  - reflexivity.
Defined.

(** X12 at the example: the previous worker, a navigation to [/about],
    offline. *)
Lemma v1_offline_navigation_has_no_page_witness :
  SwV1.on_fetch Example.origin (Example.get "/about" "navigate")
    Example.network_down Further.v1_current =
    (RespondUndefined, Further.v1_current,
     [NetFetch (url (Example.get "/about" "navigate"));
      CacheLookup (absolute Example.origin SwV1.OFFLINE_URL)]).
Proof.
  apply (v1_offline_navigation_has_no_page Example.origin
           Example.network_up Example.network_up Example.network_down
           [] Further.v1_installed Further.v1_install_trace
           (Example.get "/about" "navigate") example_v1_install).
  - reflexivity.
  - reflexivity.
  - vm_compute. reflexivity.
  - vm_compute. reflexivity.
  - reflexivity.
  - reflexivity.
Defined.

(** X14 at the example: four lines added to the initial console. *)
Lemma console_shows_last_five_witness :
  App.logs (foldl (fun st e => App.addLog e.1 e.2 st) App.initial Further.events) =
  App.last_n 5
    (App.logs App.initial
       ++ ((fun e : string * string => App.log_line e.1 e.2) <$> Further.events)).
Proof.
  apply (console_shows_last_five Further.events App.initial).
  simpl. lia.
Defined.

(** X16 at the example: an empty answer. *)
Lemma generate_success_stores_script_witness :
  App.generatedScript
    (App.generate_settle App.Omitted "10:00:09" (App.Answered (Some "")) App.initial) =
  "# Error generating script".
Proof.
  destruct (generate_success_stores_script App.Omitted "10:00:09" (Some "") App.initial)
    as (_ & _ & Hplaceholder & _).
  apply Hplaceholder. right. reflexivity.
Defined.

(** X17 at the example: an evolution call made before any script exists. *)
Lemma prompt_shape_witness :
  (App.generate_begin (App.Flag true) "10:00:03" App.initial).2 =
  (App.ARCHITECT_SHELL_PROMPT +:+ App.nl +:+ App.nl +:+
   App.PHYSICS_LIBRARY_CONSTRAINT +:+ App.nl +:+ App.nl) +:+ App.SYNTHESIS_TASK.
Proof.
  destruct (prompt_shape (App.Flag true) "10:00:03" App.initial) as (_ & Hsynthesis & _).
  apply Hsynthesis. right. reflexivity.
Defined.

(** X18 at the example. *)
Lemma header_click_runs_evolution_witness :
  (App.generate_begin App.ClickEvent "10:01:00" Further.with_script).2 ≠
    (App.generate_begin App.Omitted "10:01:00" Further.with_script).2
  /\ last (App.logs (App.generate_begin App.ClickEvent "10:01:00" Further.with_script).1) =
       Some (App.log_line "10:01:00" "Evolving existing script...")
  /\ App.generateKivyScript App.ClickEvent "10:01:00" "10:01:07" App.Thrown
       Further.with_script =
     App.generateKivyScript (App.Flag true) "10:01:00" "10:01:07" App.Thrown
       Further.with_script
  /\ (forall text,
        App.evolutionRequest
          (App.generateKivyScript App.ClickEvent "10:01:00" "10:01:07"
             (App.Answered text) Further.with_script) = "").
Proof.
  apply (header_click_runs_evolution "10:01:00" "10:01:07" App.Thrown
           Further.with_script).
  simpl. discriminate.
Defined.

(** X19 at the example: a NaN area with modulus 1. *)
Lemma nan_passes_the_guards_witness :
  PhysicsEngine.calculate_displacement Example.one Example.one S754_nan Example.one =
    S754_nan
  /\ PhysicsEngine.calculate_displacement Example.one Example.one Example.one S754_nan =
       S754_nan.
Proof.
  destruct (nan_passes_the_guards Example.one Example.one Example.one) as (_ & Hnan).
  apply Hnan. reflexivity.
Defined.

(** X20 at the example: forces 1 and -1 on area 1. *)
Lemma formulas_odd_in_force_witness :
  Further.same_result
    (PhysicsEngine.calculate_stress (SFopp Example.one) Example.one)
    (SFopp (PhysicsEngine.calculate_stress Example.one Example.one))
  /\ (PhysicsEngine.fle Example.one PhysicsEngine.zero = false ->
      Further.same_result
        (PhysicsEngine.calculate_displacement (SFopp Example.one) Example.one
           Example.one Example.one)
        (SFopp (PhysicsEngine.calculate_displacement Example.one Example.one
                  Example.one Example.one))).
Proof.
  apply (formulas_odd_in_force Example.one Example.one Example.one Example.one).
  reflexivity.
Defined.
